(** * Semantics of propositional formulas: a shallow embedding of
    [propositions/semantics.py]

    The Python functions are embedded as Rocq functions over an explicit
    error type: an [assert] that fails, a list index out of range and a
    missing attribute are results of the embedded functions, so that what
    the code raises can be stated and proved, not only what it returns.

    A Python [dict] is an insertion-ordered association list without
    repeated keys; a generator is the list of what it yields; what a
    function prints is a list of lines, kept also when the function
    raises.

    [truth_values] and [is_satisfiable] are not embedded.  In the source the
    first statement of each ([for m in models:], line 136, and
    [vars_list = list(formula.variables())], line 221) stands one column to
    the right of the docstring above it, which Python rejects with an
    [IndentationError]: neither function has a behaviour to embed.  Where
    their docstrings speak of the values of a formula in models, the
    statements below use [evaluate] on each model, as the docstring of
    [synthesize] does. *)

From Stdlib Require Import String Ascii List Bool Arith PeanoNat Lia.
From Stdlib Require Import Sorted Permutation.
Import ListNotations.
Open Scope string_scope.
Open Scope list_scope.

(** ** Outcomes of a call *)

Inductive exn : Type :=
| AssertionError
| IndexError
| KeyError
| AttributeError.

Inductive result (A : Type) : Type :=
| Ok (a : A)
| Raise (e : exn).

Arguments Ok {A} a.
Arguments Raise {A} e.

Definition bind {A B : Type} (r : result A) (k : A -> result B) : result B :=
  match r with
  | Ok a => k a
  | Raise e => Raise e
  end.

Notation "x <- r ;; k" := (bind r (fun x => k))
  (at level 61, r at next level, right associativity).

(** [assert c] followed by the rest of the body. *)
Definition assert {A : Type} (c : bool) (k : result A) : result A :=
  if c then k else Raise AssertionError.

Notation "'assert!' c ;; k" := (assert c k)
  (at level 61, c at next level, right associativity).

(** A value a function without a [return] statement can hand back. *)
Inductive pyvalue : Type :=
| PyNone
| PyBool (b : bool).

(** ** The syntax collaborator *)

Definition is_lower (c : ascii) : bool :=
  (97 <=? nat_of_ascii c)%nat && (nat_of_ascii c <=? 122)%nat.

Definition is_digit (c : ascii) : bool :=
  (48 <=? nat_of_ascii c)%nat && (nat_of_ascii c <=? 57)%nat.

Fixpoint all_digits (s : string) : bool :=
  match s with
  | EmptyString => true
  | String c rest => is_digit c && all_digits rest
  end.

(** Modelled from the spec: [is_variable] of [propositions/syntax.py], which
    is not among the sources.  A variable name is a lowercase letter,
    optionally followed by digits. *)
Definition is_variable (s : string) : bool :=
  match s with
  | EmptyString => false
  | String c rest => is_lower c && all_digits rest
  end.

(** Modelled from the spec: [is_constant] of [propositions/syntax.py]; the
    two constants are the ['T'] that [evaluate] tests for and ['F']. *)
Definition is_constant (s : string) : bool :=
  (s =? "T") || (s =? "F").

(** Modelled from the spec: [is_unary] of [propositions/syntax.py]; negation
    is the only unary operator. *)
Definition is_unary (s : string) : bool :=
  s =? "~".

(** Modelled from the spec: [is_binary] of [propositions/syntax.py]; the
    binary operators are and, or, implies and iff.  [evaluate] names the
    first three; iff is written ['<->']. *)
Definition is_binary (s : string) : bool :=
  (s =? "&") || (s =? "|") || (s =? "->") || (s =? "<->").

(** Modelled from the spec: the [Formula] class of [propositions/syntax.py].
    A formula object has a [root] label and, by arity, no child, a [first]
    child, or a [first] and a [second] child. *)
Inductive Formula : Type :=
| Atom (root : string)
| Un (root : string) (first : Formula)
| Bin (root : string) (first second : Formula).

Definition root (formula : Formula) : string :=
  match formula with
  | Atom r | Un r _ | Bin r _ _ => r
  end.

(** What the constructor of [Formula] asserts: the root label has the kind
    that goes with the number of children. *)
Fixpoint well_formed (formula : Formula) : bool :=
  match formula with
  | Atom r => is_variable r || is_constant r
  | Un r first => is_unary r && well_formed first
  | Bin r first second =>
      is_binary r && well_formed first && well_formed second
  end.

Definition mem (x : string) (l : list string) : bool :=
  existsb (String.eqb x) l.

Definition issubset (xs ys : list string) : bool :=
  forallb (fun x => mem x ys) xs.

Fixpoint variable_occurrences (formula : Formula) : list string :=
  match formula with
  | Atom r => if is_variable r then [r] else []
  | Un _ first => variable_occurrences first
  | Bin _ first second =>
      variable_occurrences first ++ variable_occurrences second
  end.

(** Modelled from the spec: [Formula.variables] of [propositions/syntax.py],
    the set of distinct variable names of the tree; the set is the
    duplicate-free list of its elements, in the order of their first
    occurrence ([classifiers_any_order] shows that the order is of no
    consequence to the classifiers). *)
Definition formula_variables (formula : Formula) : list string :=
  nodup string_dec (variable_occurrences formula).

(** Modelled from the spec: [InferenceRule] of [propositions/proofs.py]. *)
Record InferenceRule : Type := mkInferenceRule {
  assumptions : list Formula;
  conclusion : Formula
}.

(** ** Models *)

Definition Model : Type := list (string * bool).

Definition keys (model : Model) : list string := map fst model.

(** [model[key]] *)
Fixpoint getitem (model : Model) (key : string) : result bool :=
  match model with
  | [] => Raise KeyError
  | (k, v) :: rest => if k =? key then Ok v else getitem rest key
  end.

(** [model[key] = value]: an existing key keeps its place, a new key goes
    to the end. *)
Fixpoint setitem (model : Model) (key : string) (value : bool) : Model :=
  match model with
  | [] => [(key, value)]
  | (k, v) :: rest =>
      if k =? key then (k, value) :: rest
      else (k, v) :: setitem rest key value
  end.

(** [vals_list[i]] for an index that is not negative. *)
Definition list_getitem {A : Type} (l : list A) (i : nat) : result A :=
  match nth_error l i with
  | Some a => Ok a
  | None => Raise IndexError
  end.

Definition enumerate {A : Type} (l : list A) : list (nat * A) :=
  combine (seq 0 (length l)) l.

Definition is_model (model : Model) : bool :=
  forallb is_variable (keys model).

Definition variables (model : Model) : result (list string) :=
  assert! is_model model ;;
  Ok (keys model).

(** ** Evaluation *)

Fixpoint evaluate (formula : Formula) (model : Model) : result bool :=
  assert! is_model model ;;
  vs <- variables model ;;
  assert! issubset (formula_variables formula) vs ;;
  if is_variable (root formula) then getitem model (root formula)
  else if is_constant (root formula) then
    Ok (if root formula =? "T" then true else false)
  else if is_unary (root formula) then
    match formula with
    | Un _ first | Bin _ first _ =>
        b <- evaluate first model ;;
        Ok (negb b)
    | Atom _ => Raise AttributeError
    end
  else
    match formula with
    | Bin _ first second =>
        left_val <- evaluate first model ;;
        right_val <- evaluate second model ;;
        if root formula =? "&" then Ok (left_val && right_val)
        else if root formula =? "|" then Ok (left_val || right_val)
        else if root formula =? "->" then Ok (negb left_val || right_val)
        else Ok (negb (Bool.eqb left_val right_val))
    | Un _ first =>
        left_val <- evaluate first model ;;
        Raise AttributeError
    | Atom _ => Raise AttributeError
    end.

(** ** Enumeration of models *)

(** The body of the outer loop of [all_models] for one [i]. *)
Definition build_model (n i : nat) (variables : list string) : Model :=
  fold_left
    (fun model jv =>
       let '(j, var) := jv in
       let bit := Nat.land (Nat.shiftr i (n - j - 1)) 1 in
       setitem model var (negb (bit =? 0)%nat))
    (enumerate variables) [].

Definition all_models (variables : list string) : result (list Model) :=
  assert! forallb is_variable variables ;;
  let n := length variables in
  Ok (map (fun i => build_model n i variables) (seq 0 (2 ^ n))).

(** ** Classification *)

(** The loop of [is_tautology]: it returns at the first model in which the
    formula is false. *)
Fixpoint tautology_loop (formula : Formula) (models : list Model)
  : result bool :=
  match models with
  | [] => Ok true
  | m :: rest =>
      b <- evaluate formula m ;;
      if negb b then Ok false else tautology_loop formula rest
  end.

Definition is_tautology (formula : Formula) : result bool :=
  let vars_list := formula_variables formula in
  models <- all_models vars_list ;;
  tautology_loop formula models.

Fixpoint contradiction_loop (formula : Formula) (models : list Model)
  : result bool :=
  match models with
  | [] => Ok true
  | m :: rest =>
      b <- evaluate formula m ;;
      if b then Ok false else contradiction_loop formula rest
  end.

Definition is_contradiction (formula : Formula) : result bool :=
  let vars_list := formula_variables formula in
  models <- all_models vars_list ;;
  contradiction_loop formula models.

(** ** Synthesis *)

(** A [for] loop whose body updates the loop state or raises. *)
Fixpoint for_each {A S : Type} (l : list A) (body : S -> A -> result S)
  (s : S) : result S :=
  match l with
  | [] => Ok s
  | a :: rest => s' <- body s a ;; for_each rest body s'
  end.

(** The calls of the [Formula] constructor in the synthesizers are on keys
    of a valid model, on ['p'] and on formulas already built, so that its
    assertions hold; and the loops below leave [None] only for an empty
    list of keys, which the assertion before them excludes. *)
Definition _synthesize_for_model (model : Model) : result Formula :=
  assert! is_model model ;;
  assert! (0 <? length (keys model))%nat ;;
  let vars_list := keys model in
  result <- for_each vars_list
    (fun result v =>
       b <- getitem model v ;;
       let literal := if b then Atom v else Un "~" (Atom v) in
       Ok (Some match result with
                | None => literal
                | Some r => Bin "&" r literal
                end))
    None ;;
  match result with
  | Some r => Ok r
  | None => Raise AssertionError (* not reached: there is a key *)
  end.

Definition synthesize (variables : list string) (values : list bool)
  : result Formula :=
  assert! (0 <? length variables)%nat ;;
  let vals_list := values in
  models <- all_models variables ;;
  clauses <- for_each (enumerate models)
    (fun clauses im =>
       let '(i, m) := im in
       v <- list_getitem vals_list i ;;
       if v then
         clause <- _synthesize_for_model m ;;
         Ok (clauses ++ [clause])
       else Ok clauses)
    [] ;;
  match clauses with
  | [] => Ok (Bin "&" (Atom "p") (Un "~" (Atom "p")))
  | c0 :: rest => Ok (fold_left (fun result c => Bin "|" result c) rest c0)
  end.

Definition _synthesize_for_all_except_model (model : Model)
  : result Formula :=
  assert! is_model model ;;
  assert! (0 <? length (keys model))%nat ;;
  let vs := keys model in
  r <- for_each vs
    (fun r v =>
       b <- getitem model v ;;
       let l := if negb b then Atom v else Un "~" (Atom v) in
       Ok (Some match r with
                | None => l
                | Some r' => Bin "|" r' l
                end))
    None ;;
  match r with
  | Some r' => Ok r'
  | None => Raise AssertionError (* not reached: there is a key *)
  end.

Definition synthesize_cnf (variables : list string) (values : list bool)
  : result Formula :=
  assert! (0 <? length variables)%nat ;;
  let vs := values in
  models <- all_models variables ;;
  fs <- for_each (enumerate models)
    (fun fs im =>
       let '(i, m) := im in
       v <- list_getitem vs i ;;
       if negb v then
         f <- _synthesize_for_all_except_model m ;;
         Ok (fs ++ [f])
       else Ok fs)
    [] ;;
  match fs with
  | [] => Ok (Bin "|" (Atom "p") (Un "~" (Atom "p")))
  | f0 :: rest => Ok (fold_left (fun r f => Bin "&" r f) rest f0)
  end.

(** ** The truth table printer *)

(** [sorted] on names: the names in ascending order of their characters. *)
Fixpoint insert_sorted (x : string) (l : list string) : list string :=
  match l with
  | [] => [x]
  | y :: rest => if String.leb x y then x :: l else y :: insert_sorted x rest
  end.

Definition sorted (l : list string) : list string :=
  fold_right insert_sorted [] l.

(** ["-" * n] *)
Definition dashes (n : nat) : string := String.concat "" (repeat "-" n).

(** ["T" if b else "F"] *)
Definition mark (b : bool) : string := if b then "T" else "F".

(** The loop of [print_truth_table] over the models; [out] holds the lines
    printed so far. *)
Fixpoint print_rows (formula : Formula) (vars_list : list string)
  (models : list Model) (out : list string) : list string * result unit :=
  match models with
  | [] => (out, Ok tt)
  | m :: rest =>
      match
        for_each vars_list
          (fun row_vals v =>
             val <- getitem m v ;;
             Ok (row_vals ++ [mark val]))
          []
      with
      | Raise e => (out, Raise e)
      | Ok row_vals =>
          match evaluate formula m with
          | Raise e => (out, Raise e)
          | Ok result =>
              let row_vals := row_vals ++ [mark result] in
              let row := String.concat " | " row_vals in
              print_rows formula vars_list rest
                (out ++ [("| " ++ row ++ " |")%string])
          end
      end
  end.

(** [print_truth_table]: the lines it prints and how it ends.  The
    rendering [str(formula)] belongs to [propositions/syntax.py], which is
    not among the sources: it is the parameter [str]. *)
Definition print_truth_table (str : Formula -> string) (formula : Formula)
  : list string * result unit :=
  let vars_list := sorted (formula_variables formula) in
  let header := String.concat " | " (vars_list ++ [str formula]) in
  let out := [("| " ++ header ++ " |")%string] in
  let sep :=
    String.concat " | "
      (map (fun v => dashes (String.length v)) vars_list
       ++ [dashes (String.length (str formula))]) in
  let out := out ++ [("|" ++ sep ++ "|")%string] in
  match all_models vars_list with
  | Raise e => (out, Raise e)
  | Ok models => print_rows formula vars_list models out
  end.

(** ** Inference rules *)

(** The body of [evaluate_inference] ends after its assertion, and
    [is_sound_inference] has no statement after its docstring: both hand
    back [None]. *)
Definition evaluate_inference (rule : InferenceRule) (model : Model)
  : result pyvalue :=
  assert! is_model model ;;
  Ok PyNone.

Definition is_sound_inference (rule : InferenceRule) : result pyvalue :=
  Ok PyNone.

(** ** Definitions the statements and proofs use *)

(** The value of a name in a model, for names the model has. *)
Definition value_in (model : Model) (x : string) : bool :=
  match getitem model x with
  | Ok b => b
  | Raise _ => false
  end.

(** What the [if] chain that ends [evaluate] computes from the values of
    the two children. *)
Definition binary_value (r : string) (left_val right_val : bool) : bool :=
  if r =? "&" then left_val && right_val
  else if r =? "|" then left_val || right_val
  else if r =? "->" then negb left_val || right_val
  else negb (Bool.eqb left_val right_val).

(** The truth value a well-formed formula has under an assignment: what
    [evaluate] returns once its assertions hold. *)
Fixpoint truth (a : string -> bool) (formula : Formula) : bool :=
  match formula with
  | Atom r =>
      if is_variable r then a r else if r =? "T" then true else false
  | Un _ first => negb (truth a first)
  | Bin r first second =>
      binary_value r (truth a first) (truth a second)
  end.

(** The combination the specification states, with equality of the two
    values for every root that is none of ['&'], ['|'] and ['->']. *)
Definition stated_binary_value (r : string) (left_val right_val : bool)
  : bool :=
  if r =? "&" then left_val && right_val
  else if r =? "|" then left_val || right_val
  else if r =? "->" then negb left_val || right_val
  else Bool.eqb left_val right_val.

(** The booleans [all_models] gives, in model [i] over [n] names, to the
    names at positions [0], ..., [n - 1]. *)
Definition bits (n i : nat) : list bool :=
  map (fun j => Nat.testbit i (n - j - 1)) (seq 0 n).

(** A valid model that has every variable of the formula: what the two
    assertions of [evaluate] ask for. *)
Definition covering (formula : Formula) (m : Model) : Prop :=
  is_model m = true /\
  issubset (formula_variables formula) (keys m) = true.

(** The literal that the loop of [_synthesize_for_model] builds for a name
    and its value in the model, and the one of
    [_synthesize_for_all_except_model]. *)
Definition dnf_literal (kb : string * bool) : Formula :=
  if snd kb then Atom (fst kb) else Un "~" (Atom (fst kb)).

Definition cnf_literal (kb : string * bool) : Formula :=
  if negb (snd kb) then Atom (fst kb) else Un "~" (Atom (fst kb)).

(** The formulas of a list joined from left to right by one operator, as
    the loops that start from the first formula do; nothing for no formula
    at all. *)
Definition join (op : string) (fs : list Formula) : option Formula :=
  match fs with
  | [] => None
  | f :: rest => Some (fold_left (Bin op) rest f)
  end.

(** A joined formula, or the formula a synthesizer returns when there is
    nothing to join. *)
Definition joined (op : string) (fs : list Formula) (otherwise : Formula)
  : Formula :=
  match join op fs with
  | Some f => f
  | None => otherwise
  end.

(** The clause [_synthesize_for_model] returns for a model that has a key,
    and the one [_synthesize_for_all_except_model] returns. *)
Definition dnf_clause (model : Model) : Formula :=
  joined "&" (map dnf_literal model) (Atom "F").

Definition cnf_clause (model : Model) : Formula :=
  joined "|" (map cnf_literal model) (Atom "T").

(** Whether an assignment gives every name of a model the value the model
    gives it. *)
Definition agrees (a : string -> bool) (model : Model) : bool :=
  forallb (fun kb => Bool.eqb (a (fst kb)) (snd kb)) model.

(** The normal forms the docstrings of the synthesizers name.  A literal is
    a variable or the negation of a variable; [is_joined_of op inner] holds
    of formulas that satisfy [inner] joined by [op] from left to right. *)
Definition is_literal (f : Formula) : bool :=
  match f with
  | Atom r => is_variable r
  | Un r (Atom v) => (r =? "~") && is_variable v
  | _ => false
  end.

Fixpoint is_joined_of (op : string) (inner : Formula -> bool) (f : Formula)
  : bool :=
  inner f ||
  match f with
  | Bin r a b => (r =? op) && is_joined_of op inner a && inner b
  | _ => false
  end.

Definition is_dnf (f : Formula) : bool :=
  is_joined_of "|" (is_joined_of "&" is_literal) f.

Definition is_cnf (f : Formula) : bool :=
  is_joined_of "&" (is_joined_of "|" is_literal) f.

(** * Properties of the embedded functions *)

(** ** The examples of the docstrings *)

Example evaluate_doc1 :
  evaluate (Un "~" (Bin "&" (Atom "p") (Atom "q76")))
    [("p", true); ("q76", false)] = Ok true.
Proof. reflexivity. Qed.

Example evaluate_doc2 :
  evaluate (Un "~" (Bin "&" (Atom "p") (Atom "q76")))
    [("p", true); ("q76", true)] = Ok false.
Proof. reflexivity. Qed.

Example all_models_doc1 :
  all_models ["p"; "q"] =
  Ok [[("p", false); ("q", false)]; [("p", false); ("q", true)];
      [("p", true); ("q", false)]; [("p", true); ("q", true)]].
Proof. reflexivity. Qed.

Example synthesize_doc :
  exists f ms,
    synthesize ["p"; "q"] [true; true; true; false] = Ok f /\
    all_models ["p"; "q"] = Ok ms /\
    map (evaluate f) ms = [Ok true; Ok true; Ok true; Ok false].
Proof. do 2 eexists. repeat split; reflexivity. Qed.

Example synthesize_cnf_doc :
  exists f ms,
    synthesize_cnf ["p"; "q"] [true; true; true; false] = Ok f /\
    all_models ["p"; "q"] = Ok ms /\
    map (evaluate f) ms = [Ok true; Ok true; Ok true; Ok false].
Proof. do 2 eexists. repeat split; reflexivity. Qed.

Example tautology_doc :
  is_tautology (Bin "|" (Atom "p") (Un "~" (Atom "p"))) = Ok true
  /\ is_contradiction (Bin "&" (Atom "p") (Un "~" (Atom "p"))) = Ok true.
Proof. split; reflexivity. Qed.

(** ** Sets of names *)

Lemma mem_In (x : string) (l : list string) : mem x l = true <-> In x l.
Proof.
  unfold mem. rewrite existsb_exists. split.
  - intros [y [Hy He]]. apply String.eqb_eq in He. now subst.
  - intros H. exists x. split; [assumption | apply String.eqb_refl].
Qed.

Lemma issubset_incl (xs ys : list string) :
  issubset xs ys = true <-> incl xs ys.
Proof.
  unfold issubset. rewrite forallb_forall. unfold incl.
  split; intros H x Hx; apply mem_In, H, Hx.
Qed.

Lemma formula_variables_In (x : string) (formula : Formula) :
  In x (formula_variables formula) <-> In x (variable_occurrences formula).
Proof. apply nodup_In. Qed.

Lemma issubset_formula_variables (formula : Formula) (ys : list string) :
  issubset (formula_variables formula) ys = true
  <-> incl (variable_occurrences formula) ys.
Proof.
  rewrite issubset_incl. unfold formula_variables. split; intros H x Hx.
  - apply H, nodup_In, Hx.
  - apply H. eapply nodup_In, Hx.
Qed.

(** ** The four kinds of root labels are disjoint *)

Lemma variable_not_constant (s : string) :
  is_variable s = true -> is_constant s = false.
Proof.
  intros H. unfold is_constant.
  destruct (String.eqb_spec s "T") as [->|_]; [discriminate H|].
  destruct (String.eqb_spec s "F") as [->|_]; [discriminate H|].
  reflexivity.
Qed.

Lemma unary_root (s : string) : is_unary s = true -> s = "~".
Proof. apply String.eqb_eq. Qed.

Lemma binary_root (s : string) :
  is_binary s = true -> s = "&" \/ s = "|" \/ s = "->" \/ s = "<->".
Proof.
  unfold is_binary. rewrite !orb_true_iff, !String.eqb_eq. tauto.
Qed.

Lemma binary_not_leaf_or_unary (s : string) :
  is_binary s = true ->
  is_variable s = false /\ is_constant s = false /\ is_unary s = false.
Proof.
  intros H. apply binary_root in H.
  destruct H as [-> | [-> | [-> | ->]]]; repeat split; reflexivity.
Qed.

(** ** Dictionaries *)

Lemma getitem_In (model : Model) (key : string) :
  In key (keys model) -> exists b, getitem model key = Ok b.
Proof.
  induction model as [|[k v] rest IH]; simpl; [contradiction|].
  intros [E | Hin].
  - subst. rewrite String.eqb_refl. eauto.
  - destruct (k =? key); eauto.
Qed.

Lemma getitem_NoDup_In (model : Model) (key : string) (value : bool) :
  NoDup (keys model) -> In (key, value) model -> getitem model key = Ok value.
Proof.
  induction model as [|[k v] rest IH]; simpl; [contradiction|].
  intros Hnd [E | Hin].
  - injection E as -> ->. now rewrite String.eqb_refl.
  - inversion Hnd as [|? ? Hk Hrest]; subst.
    destruct (String.eqb_spec k key) as [->|_].
    + exfalso. apply Hk. change key with (fst (key, value)).
      now apply in_map.
    + now apply IH.
Qed.

Lemma keys_setitem (model : Model) (key : string) (value : bool) :
  keys (setitem model key value) =
  if mem key (keys model) then keys model else keys model ++ [key].
Proof.
  induction model as [|[k v] rest IH]; simpl; [reflexivity|].
  rewrite (String.eqb_sym key k).
  destruct (String.eqb_spec k key) as [->|_]; simpl; [reflexivity|].
  rewrite IH. now destruct (mem key (keys rest)).
Qed.

Lemma setitem_fresh (model : Model) (key : string) (value : bool) :
  ~ In key (keys model) -> setitem model key value = model ++ [(key, value)].
Proof.
  induction model as [|[k v] rest IH]; simpl; [reflexivity|].
  intros H. destruct (String.eqb_spec k key) as [->|_].
  - exfalso. apply H. now left.
  - f_equal. apply IH. intros Hin. apply H. now right.
Qed.

(** ** Evaluation of well-formed formulas *)

Lemma evaluate_not_model (formula : Formula) (model : Model) :
  is_model model = false -> evaluate formula model = Raise AssertionError.
Proof. intros H. destruct formula; simpl; now rewrite H. Qed.

Lemma evaluate_truth (formula : Formula) (model : Model) :
  well_formed formula = true ->
  is_model model = true ->
  issubset (formula_variables formula) (keys model) = true ->
  evaluate formula model = Ok (truth (value_in model) formula).
Proof.
  intros Hwf Hm. induction formula as [r | r f IHf | r f IHf g IHg];
    intros Hsub; cbn [evaluate root truth]; unfold variables;
    rewrite Hm; cbn [assert bind]; rewrite Hsub; cbn [assert].
  - simpl in Hwf. destruct (is_variable r) eqn:Hv.
    + apply issubset_formula_variables in Hsub. simpl in Hsub.
      rewrite Hv in Hsub.
      destruct (getitem_In model r) as [b Hb]; [apply Hsub; now left|].
      unfold value_in. now rewrite Hb.
    + simpl in Hwf. now rewrite Hwf.
  - simpl in Hwf. apply andb_true_iff in Hwf as [Hr Hf].
    apply unary_root in Hr. subst r. cbn.
    rewrite IHf; [reflexivity | assumption | exact Hsub].
  - simpl in Hwf. apply andb_true_iff in Hwf as [Hwf Hg].
    apply andb_true_iff in Hwf as [Hr Hf].
    destruct (binary_not_leaf_or_unary r Hr) as [Hv [Hc Hu]].
    rewrite Hv, Hc, Hu.
    apply issubset_formula_variables in Hsub. simpl in Hsub.
    rewrite IHf, IHg; try assumption.
    + cbn [bind]. unfold binary_value.
      destruct (r =? "&"); [reflexivity|].
      destruct (r =? "|"); [reflexivity|].
      destruct (r =? "->"); reflexivity.
    + apply issubset_formula_variables. intros x Hx. apply Hsub.
      apply in_or_app. now right.
    + apply issubset_formula_variables. intros x Hx. apply Hsub.
      apply in_or_app. now left.
Qed.

Lemma evaluate_not_subset (formula : Formula) (model : Model) :
  issubset (formula_variables formula) (keys model) = false ->
  evaluate formula model = Raise AssertionError.
Proof.
  intros H. destruct (is_model model) eqn:Hm;
    [| now apply evaluate_not_model].
  destruct formula; cbn [evaluate]; unfold variables;
    rewrite Hm; cbn [assert bind]; now rewrite H.
Qed.

Lemma evaluate_neg (first : Formula) (model : Model) :
  evaluate (Un "~" first) model = (b <- evaluate first model ;; Ok (negb b)).
Proof.
  destruct (is_model model) eqn:Hm.
  - destruct (issubset (formula_variables first) (keys model)) eqn:Hs.
    + cbn [evaluate root]. unfold variables. rewrite Hm. cbn [assert bind].
      change (formula_variables (Un "~" first))
        with (formula_variables first).
      rewrite Hs. reflexivity.
    + rewrite (evaluate_not_subset first), evaluate_not_subset;
        [reflexivity | exact Hs | exact Hs].
  - now rewrite (evaluate_not_model first), evaluate_not_model.
Qed.

Lemma truth_ext (a a' : string -> bool) (formula : Formula) :
  (forall x, In x (variable_occurrences formula) -> a x = a' x) ->
  truth a formula = truth a' formula.
Proof.
  induction formula as [r | r f IHf | r f IHf g IHg]; simpl; intros H.
  - destruct (is_variable r); [apply H; now left | reflexivity].
  - now rewrite IHf.
  - rewrite IHf, IHg; [reflexivity | |];
      intros x Hx; apply H, in_or_app; auto.
Qed.

(** ** C1: how [evaluate] combines the children of a binary formula *)

(** C1 at the formula [(T<->T)] and the empty model: the formula is a
    well-formed binary formula, the model covers its variables, both
    children evaluate to true, and [evaluate] returns false, where the
    combination stated for the iff operator, true exactly when the two
    values are equal, is true.  The final [else] of the source returns
    [left_val != right_val]. *)
Lemma evaluate_iff_is_not_equality :
  well_formed (Bin "<->" (Atom "T") (Atom "T")) = true /\
  is_model [] = true /\
  issubset (formula_variables (Bin "<->" (Atom "T") (Atom "T"))) (keys [])
  = true /\
  evaluate (Atom "T") [] = Ok true /\
  evaluate (Bin "<->" (Atom "T") (Atom "T")) [] = Ok false /\
  evaluate (Bin "<->" (Atom "T") (Atom "T")) []
  <> Ok (stated_binary_value "<->" true true).
Proof.
  repeat split; try reflexivity. cbv. discriminate.
Qed.

(** What the branches of [evaluate] return at a binary formula, in every
    model covering its variables: both children evaluate to booleans;
    ['&'] gives their conjunction, ['|'] their disjunction, ['->'] the
    disjunction of the negated left value and the right value, as stated;
    the final [else], which the root ['<->'] reaches, gives the exclusive
    or of the two values, the negation of what is stated for iff. *)
Lemma evaluate_binary (r : string) (first second : Formula)
  (model : Model) :
  well_formed (Bin r first second) = true ->
  is_model model = true ->
  issubset (formula_variables (Bin r first second)) (keys model) = true ->
  exists lv rv,
    evaluate first model = Ok lv /\
    evaluate second model = Ok rv /\
    (r = "&" -> evaluate (Bin r first second) model = Ok (lv && rv)) /\
    (r = "|" -> evaluate (Bin r first second) model = Ok (lv || rv)) /\
    (r = "->" ->
       evaluate (Bin r first second) model = Ok (negb lv || rv)) /\
    (r = "<->" ->
       evaluate (Bin r first second) model = Ok (negb (Bool.eqb lv rv))).
Proof.
  intros Hwf Hm Hsub.
  rewrite (evaluate_truth _ _ Hwf Hm Hsub).
  simpl in Hwf. apply andb_true_iff in Hwf as [Hwf Hg].
  apply andb_true_iff in Hwf as [_ Hf].
  apply issubset_formula_variables in Hsub. simpl in Hsub.
  assert (Hsf : issubset (formula_variables first) (keys model) = true).
  { apply issubset_formula_variables. intros x Hx.
    apply Hsub, in_or_app. now left. }
  assert (Hsg : issubset (formula_variables second) (keys model) = true).
  { apply issubset_formula_variables. intros x Hx.
    apply Hsub, in_or_app. now right. }
  exists (truth (value_in model) first), (truth (value_in model) second).
  rewrite (evaluate_truth _ _ Hf Hm Hsf), (evaluate_truth _ _ Hg Hm Hsg).
  repeat split; intros ->; reflexivity.
Qed.

Lemma evaluate_binary_witness :
  exists lv rv,
    evaluate (Atom "p") [("p", true); ("q", true)] = Ok lv /\
    evaluate (Atom "q") [("p", true); ("q", true)] = Ok rv /\
    ("<->" = "&" ->
       evaluate (Bin "<->" (Atom "p") (Atom "q")) [("p", true); ("q", true)]
       = Ok (lv && rv)) /\
    ("<->" = "|" ->
       evaluate (Bin "<->" (Atom "p") (Atom "q")) [("p", true); ("q", true)]
       = Ok (lv || rv)) /\
    ("<->" = "->" ->
       evaluate (Bin "<->" (Atom "p") (Atom "q")) [("p", true); ("q", true)]
       = Ok (negb lv || rv)) /\
    ("<->" = "<->" ->
       evaluate (Bin "<->" (Atom "p") (Atom "q")) [("p", true); ("q", true)]
       = Ok (negb (Bool.eqb lv rv))).
Proof.
  apply (evaluate_binary "<->" (Atom "p") (Atom "q")
           [("p", true); ("q", true)]); reflexivity.
Defined.

(** ** C9: [evaluate] depends only on the variables of the formula *)

(** C9: for every formula and any two models that cover its variables and
    agree on each of them, [evaluate] returns the same boolean; being a
    function of its two arguments, it returns the same result whenever it
    is called on the same inputs. *)
Theorem evaluate_agree (formula : Formula) (m1 m2 : Model) :
  well_formed formula = true ->
  is_model m1 = true ->
  is_model m2 = true ->
  issubset (formula_variables formula) (keys m1) = true ->
  issubset (formula_variables formula) (keys m2) = true ->
  (forall x, In x (formula_variables formula) ->
             getitem m1 x = getitem m2 x) ->
  exists b, evaluate formula m1 = Ok b /\ evaluate formula m2 = Ok b.
Proof.
  intros Hwf H1 H2 Hs1 Hs2 Hagree.
  exists (truth (value_in m1) formula). split.
  - now apply evaluate_truth.
  - rewrite (evaluate_truth _ _ Hwf H2 Hs2). f_equal.
    apply truth_ext. intros x Hx. unfold value_in.
    rewrite Hagree; [reflexivity | now apply formula_variables_In].
Qed.

Lemma evaluate_agree_witness :
  exists b,
    evaluate (Bin "->" (Atom "p") (Un "~" (Atom "q")))
      [("p", true); ("q", false); ("r", true)] = Ok b /\
    evaluate (Bin "->" (Atom "p") (Un "~" (Atom "q")))
      [("z3", false); ("q", false); ("p", true)] = Ok b.
Proof.
  apply evaluate_agree; try reflexivity.
  intros x [<- | [<- | []]]; reflexivity.
Defined.

(** ** The models that [all_models] yields *)

Lemma bit_of_shift (i k : nat) :
  negb (Nat.land (Nat.shiftr i k) 1 =? 0)%nat = Nat.testbit i k.
Proof.
  rewrite Nat.testbit_odd, <- Nat.bit0_odd, Nat.bit0_eqb.
  change 1 with (Nat.ones 1) at 1. rewrite Nat.land_ones.
  change (2 ^ 1) with 2.
  pose proof (Nat.mod_upper_bound (Nat.shiftr i k) 2) as Hlt.
  destruct (Nat.shiftr i k mod 2) as [|[|m]]; [reflexivity | reflexivity | lia].
Qed.

Lemma keys_combine (vs : list string) (bs : list bool) :
  length bs = length vs -> keys (combine vs bs) = vs.
Proof.
  revert bs. induction vs as [|v vs IH]; intros [|b bs] H; simpl in *;
    try discriminate; [reflexivity|].
  f_equal. apply IH. now injection H.
Qed.

Lemma length_bits (n i : nat) : length (bits n i) = n.
Proof. unfold bits. now rewrite length_map, length_seq. Qed.

Lemma build_model_fold (n i : nat) (vs : list string) :
  forall (s : nat) (acc : Model),
    NoDup vs ->
    (forall x, In x vs -> ~ In x (keys acc)) ->
    fold_left
      (fun model (jv : nat * string) =>
         let '(j, var) := jv in
         let bit := Nat.land (Nat.shiftr i (n - j - 1)) 1 in
         setitem model var (negb (bit =? 0)%nat))
      (combine (seq s (length vs)) vs) acc
    = acc ++ combine vs
               (map (fun j => Nat.testbit i (n - j - 1)) (seq s (length vs))).
Proof.
  induction vs as [|v vs IH]; intros s acc Hnd Hfresh; simpl.
  - now rewrite app_nil_r.
  - rewrite bit_of_shift, setitem_fresh by (apply Hfresh; now left).
    inversion Hnd as [|? ? Hv Hvs]; subst. rewrite IH; try assumption.
    + now rewrite <- app_assoc.
    + intros x Hx Hin. unfold keys in Hin. rewrite map_app in Hin.
      apply in_app_or in Hin as [Hin | [E | []]].
      * now apply (Hfresh x); [right|].
      * simpl in E. subst. contradiction.
Qed.

(** Over names without repetition, model [i] pairs the names, in their
    order, with the bits of [i], the most significant first. *)
Lemma build_model_NoDup (i : nat) (vs : list string) :
  NoDup vs -> build_model (length vs) i vs = combine vs (bits (length vs) i).
Proof.
  intros Hnd. unfold build_model, enumerate.
  now rewrite build_model_fold.
Qed.

Lemma keys_fold_setitem (f : nat -> bool) (l : list (nat * string)) :
  forall (acc : Model) (x : string),
    In x (keys (fold_left
                  (fun model (jv : nat * string) =>
                     let '(j, var) := jv in setitem model var (f j))
                  l acc))
    <-> In x (keys acc) \/ In x (map snd l).
Proof.
  induction l as [|[j v] l IH]; intros acc x; simpl; [tauto|].
  rewrite IH, keys_setitem.
  destruct (mem v (keys acc)) eqn:Hmem.
  - apply mem_In in Hmem. split; [tauto|].
    intros [H | [E | H]]; auto. subst. auto.
  - rewrite in_app_iff. simpl. tauto.
Qed.

Lemma map_snd_combine_seq (s : nat) (vs : list string) :
  map snd (combine (seq s (length vs)) vs) = vs.
Proof.
  revert s. induction vs as [|v vs IH]; intros s; simpl; [reflexivity|].
  now rewrite IH.
Qed.

(** Whether or not names repeat, the keys of a model are the names. *)
Lemma keys_build_model (n i : nat) (vs : list string) (x : string) :
  In x (keys (build_model n i vs)) <-> In x vs.
Proof.
  unfold build_model, enumerate.
  rewrite (keys_fold_setitem
             (fun j => negb (Nat.land (Nat.shiftr i (n - j - 1)) 1 =? 0)%nat)).
  rewrite map_snd_combine_seq. simpl. tauto.
Qed.

Lemma is_model_build_model (n i : nat) (vs : list string) :
  forallb is_variable vs = true -> is_model (build_model n i vs) = true.
Proof.
  intros H. unfold is_model. rewrite forallb_forall in *.
  intros x Hx. apply H. now apply keys_build_model in Hx.
Qed.

Lemma all_models_Ok (vs : list string) :
  forallb is_variable vs = true ->
  all_models vs =
  Ok (map (fun i => build_model (length vs) i vs) (seq 0 (2 ^ length vs))).
Proof. intros H. unfold all_models. now rewrite H. Qed.

Lemma nth_error_map_seq {A : Type} (f : nat -> A) (len i : nat) (a : A) :
  nth_error (map f (seq 0 len)) i = Some a <-> i < len /\ a = f i.
Proof.
  rewrite nth_error_map, nth_error_seq.
  destruct (Nat.ltb_spec i len); simpl; split.
  - intros E. injection E as <-. now split.
  - now intros [_ ->].
  - discriminate.
  - intros [Hlt _]. lia.
Qed.

(** ** Indices and their bits *)

Lemma bits_high (n i k : nat) : i < 2 ^ n -> n <= k -> Nat.testbit i k = false.
Proof.
  intros Hi Hk. rewrite <- (Nat.mod_small i (2 ^ n)) by assumption.
  now apply Nat.mod_pow2_bits_high.
Qed.

Lemma index_of_bits_unique (n i i' : nat) :
  i < 2 ^ n -> i' < 2 ^ n ->
  (forall k, k < n -> Nat.testbit i k = Nat.testbit i' k) -> i = i'.
Proof.
  intros Hi Hi' H. apply Nat.bits_inj. intros k.
  destruct (Nat.lt_ge_cases k n) as [Hk | Hk]; [now apply H|].
  now rewrite (bits_high n i k), (bits_high n i' k).
Qed.

Lemma index_of_bits_exists (n : nat) :
  forall f : nat -> bool,
    exists i, i < 2 ^ n /\ forall k, k < n -> Nat.testbit i k = f k.
Proof.
  induction n as [|n IH]; intros f.
  - exists 0. split; [simpl; lia | intros k Hk; lia].
  - destruct (IH (fun k => f (S k))) as [i [Hi Hb]].
    exists (2 * i + Nat.b2n (f 0)). split.
    + rewrite Nat.pow_succ_r'. destruct (f 0); simpl Nat.b2n; lia.
    + intros [|k] Hk.
      * apply Nat.testbit_0_r.
      * rewrite Nat.testbit_succ_r. apply Hb. lia.
Qed.

Lemma nth_error_combine_In {A B : Type} (l : list A) (l' : list B) :
  forall (j : nat) (x : A) (y : B),
    nth_error l j = Some x -> nth_error l' j = Some y ->
    In (x, y) (combine l l').
Proof.
  revert l'. induction l as [|a l IH]; intros [|b l'] [|j] x y Hx Hy;
    simpl in *; try discriminate.
  - injection Hx as <-. injection Hy as <-. now left.
  - right. eapply IH; eassumption.
Qed.

Lemma getitem_assignment (vs : list string) (i j : nat) (v : string) :
  NoDup vs ->
  nth_error vs j = Some v ->
  getitem (combine vs (bits (length vs) i)) v
  = Ok (Nat.testbit i (length vs - 1 - j)).
Proof.
  intros Hnd Hv. apply getitem_NoDup_In.
  - now rewrite keys_combine by apply length_bits.
  - apply (nth_error_combine_In _ _ j); [exact Hv|].
    unfold bits. apply nth_error_map_seq. split.
    + apply nth_error_Some. congruence.
    + f_equal. lia.
Qed.

(** ** C5: what [all_models] yields *)

(** C5: for a duplicate-free sequence of [n] variable names, [all_models]
    yields exactly [2^n] models; model [i] is over exactly these names and
    gives the name at position [j] bit [n-1-j] of [i]; every assignment of
    booleans to the names is the one of exactly one model; and for no name
    at all there is the single, empty model. *)
Theorem all_models_enumerates (vs : list string) :
  forallb is_variable vs = true ->
  NoDup vs ->
  exists ms,
    all_models vs = Ok ms /\
    length ms = 2 ^ length vs /\
    (forall i m,
        nth_error ms i = Some m ->
        keys m = vs /\
        forall j v,
          nth_error vs j = Some v ->
          getitem m v = Ok (Nat.testbit i (length vs - 1 - j))) /\
    (forall a : string -> bool,
        exists i,
          (exists m,
              nth_error ms i = Some m /\
              forall v, In v vs -> getitem m v = Ok (a v)) /\
          (forall i' m',
              nth_error ms i' = Some m' ->
              (forall v, In v vs -> getitem m' v = Ok (a v)) ->
              i' = i)) /\
    (vs = [] -> ms = [[]]).
Proof.
  intros Hvars Hnd. set (n := length vs).
  exists (map (fun i => build_model n i vs) (seq 0 (2 ^ n))).
  assert (Hlook : forall i m,
             nth_error (map (fun i => build_model n i vs) (seq 0 (2 ^ n))) i
             = Some m ->
             i < 2 ^ n /\ keys m = vs /\
             forall j v, nth_error vs j = Some v ->
                         getitem m v = Ok (Nat.testbit i (n - 1 - j))).
  { intros i m Hm. apply nth_error_map_seq in Hm as [Hi ->].
    unfold n. rewrite build_model_NoDup by assumption.
    split; [exact Hi | split].
    - apply keys_combine, length_bits.
    - intros j v Hv. now apply getitem_assignment. }
  split; [now apply all_models_Ok | split; [| split; [| split]]].
  - now rewrite length_map, length_seq.
  - intros i m Hm. now destruct (Hlook i m Hm) as [_ H].
  - intros a.
    destruct (index_of_bits_exists n (fun k => a (nth (n - 1 - k) vs "")))
      as [i [Hi Hbits]].
    exists i. split.
    + exists (build_model n i vs).
      assert (Hm : nth_error
                     (map (fun i => build_model n i vs) (seq 0 (2 ^ n))) i
                   = Some (build_model n i vs))
        by now apply nth_error_map_seq.
      split; [exact Hm|]. intros v Hv.
      destruct (In_nth_error _ _ Hv) as [j Hj].
      destruct (Hlook _ _ Hm) as [_ [_ Hget]]. rewrite (Hget j v Hj).
      assert (Hjn : j < n) by (apply nth_error_Some; congruence).
      rewrite Hbits by lia. do 2 f_equal.
      replace (n - 1 - (n - 1 - j)) with j by lia.
      now apply nth_error_nth.
    + intros i' m' Hm' Hagree.
      destruct (Hlook _ _ Hm') as [Hi' [_ Hget]].
      apply (index_of_bits_unique n); try assumption.
      intros k Hk. rewrite Hbits by assumption.
      assert (Hj : nth_error vs (n - 1 - k) = Some (nth (n - 1 - k) vs ""))
        by (apply nth_error_nth'; fold n; lia).
      pose proof (Hget _ _ Hj) as Hg.
      rewrite Hagree in Hg by (eapply nth_error_In, Hj).
      replace (n - 1 - (n - 1 - k)) with k in Hg by lia.
      now injection Hg.
  - intros ->. reflexivity.
Qed.

Lemma all_models_enumerates_witness :
  exists ms,
    all_models ["q"; "p"] = Ok ms /\
    length ms = 2 ^ length ["q"; "p"] /\
    (forall i m,
        nth_error ms i = Some m ->
        keys m = ["q"; "p"] /\
        forall j v,
          nth_error ["q"; "p"] j = Some v ->
          getitem m v = Ok (Nat.testbit i (length ["q"; "p"] - 1 - j))) /\
    (forall a : string -> bool,
        exists i,
          (exists m,
              nth_error ms i = Some m /\
              forall v, In v ["q"; "p"] -> getitem m v = Ok (a v)) /\
          (forall i' m',
              nth_error ms i' = Some m' ->
              (forall v, In v ["q"; "p"] -> getitem m' v = Ok (a v)) ->
              i' = i)) /\
    (["q"; "p"] = [] -> ms = [[]]).
Proof.
  apply all_models_enumerates.
  - reflexivity.
  - repeat constructor; simpl; intuition discriminate.
Defined.

Example all_models_empty : all_models [] = Ok [[]].
Proof. reflexivity. Qed.

(** ** Classification *)

Lemma formula_variables_are_variables (formula : Formula) :
  forallb is_variable (formula_variables formula) = true.
Proof.
  apply forallb_forall. intros x Hx. apply formula_variables_In in Hx.
  induction formula as [r | r f IHf | r f IHf g IHg]; simpl in Hx.
  - destruct (is_variable r) eqn:Hr; [| contradiction].
    destruct Hx as [<- | []]. exact Hr.
  - now apply IHf.
  - apply in_app_or in Hx as [Hx | Hx]; auto.
Qed.

Lemma build_model_covers (n i : nat) (vs : list string) :
  issubset vs (keys (build_model n i vs)) = true.
Proof.
  apply issubset_incl. intros x Hx. now apply keys_build_model.
Qed.

(** Over models that are valid and cover the formula, each loop is total
    and returns what its name says. *)
Section Loops.

Variable formula : Formula.
Hypothesis formula_wf : well_formed formula = true.

Lemma tautology_loop_forallb (ms : list Model) :
  Forall (covering formula) ms ->
  tautology_loop formula ms
  = Ok (forallb (fun m => truth (value_in m) formula) ms).
Proof.
  induction 1 as [|m ms [Hm Hs] _ IH]; simpl; [reflexivity|].
  rewrite (evaluate_truth _ _ formula_wf Hm Hs). cbn [bind].
  destruct (truth (value_in m) formula); simpl; [exact IH | reflexivity].
Qed.

Lemma contradiction_loop_forallb (ms : list Model) :
  Forall (covering formula) ms ->
  contradiction_loop formula ms
  = Ok (forallb (fun m => negb (truth (value_in m) formula)) ms).
Proof.
  induction 1 as [|m ms [Hm Hs] _ IH]; simpl; [reflexivity|].
  rewrite (evaluate_truth _ _ formula_wf Hm Hs). cbn [bind].
  destruct (truth (value_in m) formula); simpl; [reflexivity | exact IH].
Qed.

Lemma all_models_covering :
  exists ms,
    all_models (formula_variables formula) = Ok ms /\ Forall (covering formula) ms.
Proof.
  pose proof (formula_variables_are_variables formula) as Hv.
  eexists. split; [now apply all_models_Ok|].
  apply Forall_forall. intros m Hm. apply in_map_iff in Hm as [i [<- _]].
  split; [now apply is_model_build_model | apply build_model_covers].
Qed.

Lemma is_tautology_total : exists t, is_tautology formula = Ok t.
Proof.
  destruct all_models_covering as [ms [Hms Hcov]].
  unfold is_tautology. rewrite Hms. cbn [bind].
  rewrite tautology_loop_forallb by assumption. eauto.
Qed.

Lemma is_contradiction_total : exists c, is_contradiction formula = Ok c.
Proof.
  destruct all_models_covering as [ms [Hms Hcov]].
  unfold is_contradiction. rewrite Hms. cbn [bind].
  rewrite contradiction_loop_forallb by assumption. eauto.
Qed.

End Loops.

(** The loops on a negation, whatever the formula and the models. *)
Lemma contradiction_loop_neg (formula : Formula) (ms : list Model) :
  contradiction_loop (Un "~" formula) ms = tautology_loop formula ms.
Proof.
  induction ms as [|m ms IH]; [reflexivity|].
  cbn [contradiction_loop tautology_loop]. rewrite evaluate_neg.
  destruct (evaluate formula m) as [[|]|e]; cbn [bind negb];
    [exact IH | reflexivity | reflexivity].
Qed.

Lemma is_contradiction_neg (formula : Formula) :
  is_contradiction (Un "~" formula) = is_tautology formula.
Proof.
  unfold is_contradiction, is_tautology.
  change (formula_variables (Un "~" formula))
    with (formula_variables formula).
  destruct (all_models (formula_variables formula)); [| reflexivity].
  apply contradiction_loop_neg.
Qed.

(** ** C6: duality of the classifiers *)

(** C6 at the formula [p]: [is_tautology] of the negation of [p] returns
    false, so that the claim asks [is_satisfiable p] for true, and [p] is
    indeed true in a model; but the text of [is_satisfiable] in the source
    is not a function that Python accepts (line 221), and returns
    nothing. *)
Lemma is_tautology_of_negated_variable :
  is_tautology (Un "~" (Atom "p")) = Ok false /\
  evaluate (Atom "p") [("p", true)] = Ok true.
Proof. split; reflexivity. Qed.

(** The half of the duality that is about functions the source defines:
    for every well-formed formula [F], [is_tautology F] and
    [is_contradiction] of the negation of [F] return the same boolean, so
    that one returns true if and only if the other does. *)
Theorem tautology_contradiction_duality (formula : Formula) :
  well_formed formula = true ->
  (is_tautology formula = Ok true
   <-> is_contradiction (Un "~" formula) = Ok true) /\
  exists t,
    is_tautology formula = Ok t /\
    is_contradiction (Un "~" formula) = Ok t.
Proof.
  intros Hwf.
  destruct (is_tautology_total formula Hwf) as [t Ht].
  rewrite is_contradiction_neg, Ht. split; [tauto | now exists t].
Qed.

Lemma tautology_contradiction_duality_witness :
  (is_tautology (Bin "->" (Atom "p") (Atom "q")) = Ok true
   <-> is_contradiction (Un "~" (Bin "->" (Atom "p") (Atom "q"))) = Ok true)
  /\
  exists t,
    is_tautology (Bin "->" (Atom "p") (Atom "q")) = Ok t /\
    is_contradiction (Un "~" (Bin "->" (Atom "p") (Atom "q"))) = Ok t.
Proof.
  apply tautology_contradiction_duality. reflexivity.
Defined.

(** ** C2, C3: the inference checks *)

(** C2 at the second example of the docstring: the assumption [p] is false
    in the model, and the call hands back [None], not [True]. *)
Lemma evaluate_inference_docstring_example :
  evaluate (Atom "p") [("p", false); ("q", false)] = Ok false /\
  evaluate_inference (mkInferenceRule [Atom "p"] (Atom "q"))
    [("p", false); ("q", false)] = Ok PyNone.
Proof. split; reflexivity. Qed.

(** C3 at the rule that infers [p] from [p]: no model makes the assumption
    true and the conclusion false, and the call hands back [None], not
    [True]. *)
Lemma is_sound_inference_trivial_rule :
  (ms <- all_models ["p"] ;; Ok (map (evaluate (Atom "p")) ms))
  = Ok [Ok false; Ok true] /\
  is_sound_inference (mkInferenceRule [Atom "p"] (Atom "p")) = Ok PyNone.
Proof. split; reflexivity. Qed.

(** ** The loops of the synthesizers *)

Lemma NoDup_keys_setitem (model : Model) (key : string) (value : bool) :
  NoDup (keys model) -> NoDup (keys (setitem model key value)).
Proof.
  intros H. rewrite keys_setitem. destruct (mem key (keys model)) eqn:Hmem;
    [exact H|].
  apply NoDup_app; [exact H | repeat constructor; intros [] |].
  intros a Ha [<- | []].
  apply mem_In in Ha. congruence.
Qed.

(** A dictionary has each key once, also when names repeat. *)
Lemma NoDup_keys_build_model (n i : nat) (vs : list string) :
  NoDup (keys (build_model n i vs)).
Proof.
  unfold build_model.
  assert (H : NoDup (keys [])) by constructor.
  revert H. generalize (@nil (string * bool)) as acc.
  induction (enumerate vs) as [|[j v] l IH]; intros acc H; simpl;
    [exact H|].
  apply IH. now apply NoDup_keys_setitem.
Qed.

Section LiteralLoop.

Variable op : string.
Variable lit : string * bool -> Formula.
Variable model : Model.
Hypothesis model_NoDup : NoDup (keys model).

Lemma literal_loop_from_Some (suffix : Model) :
  incl suffix model ->
  forall r : Formula,
    for_each (keys suffix)
      (fun (r : option Formula) (v : string) =>
         b <- getitem model v ;;
         Ok (Some match r with
                  | None => lit (v, b)
                  | Some r' => Bin op r' (lit (v, b))
                  end))
      (Some r)
    = Ok (Some (fold_left (Bin op) (map lit suffix) r)).
Proof.
  induction suffix as [|[k b] suffix IH]; intros Hincl r; simpl;
    [reflexivity|].
  rewrite (getitem_NoDup_In model k b model_NoDup) by (apply Hincl; now left).
  cbn [bind]. apply IH. intros x Hx. apply Hincl. now right.
Qed.

Lemma literal_loop_from_None (suffix : Model) :
  incl suffix model ->
  for_each (keys suffix)
    (fun (r : option Formula) (v : string) =>
       b <- getitem model v ;;
       Ok (Some match r with
                | None => lit (v, b)
                | Some r' => Bin op r' (lit (v, b))
                end))
    None
  = Ok (join op (map lit suffix)).
Proof.
  destruct suffix as [|[k b] rest]; intros Hincl; [reflexivity|].
  cbn [keys map fst for_each].
  rewrite (getitem_NoDup_In model k b model_NoDup) by (apply Hincl; now left).
  cbn [bind join].
  apply (literal_loop_from_Some rest). intros x Hx. apply Hincl. now right.
Qed.

End LiteralLoop.

Lemma synthesize_for_model_join (model : Model) :
  is_model model = true ->
  NoDup (keys model) ->
  _synthesize_for_model model =
  match join "&" (map dnf_literal model) with
  | Some f => Ok f
  | None => Raise AssertionError
  end.
Proof.
  intros Hm Hnd. unfold _synthesize_for_model. rewrite Hm. cbn [assert].
  destruct model as [|kb rest]; [reflexivity|].
  change (0 <? length (keys (kb :: rest)))%nat with true. cbn [assert].
  cbv zeta. set (loop := for_each _ _ _).
  assert (E : loop = Ok (join "&" (map dnf_literal (kb :: rest))))
    by exact (literal_loop_from_None "&" dnf_literal _ Hnd (kb :: rest)
                (incl_refl _)).
  rewrite E. reflexivity.
Qed.

Lemma synthesize_for_all_except_model_join (model : Model) :
  is_model model = true ->
  NoDup (keys model) ->
  _synthesize_for_all_except_model model =
  match join "|" (map cnf_literal model) with
  | Some f => Ok f
  | None => Raise AssertionError
  end.
Proof.
  intros Hm Hnd. unfold _synthesize_for_all_except_model. rewrite Hm.
  cbn [assert].
  destruct model as [|kb rest]; [reflexivity|].
  change (0 <? length (keys (kb :: rest)))%nat with true. cbn [assert].
  cbv zeta. set (loop := for_each _ _ _).
  assert (E : loop = Ok (join "|" (map cnf_literal (kb :: rest))))
    by exact (literal_loop_from_None "|" cnf_literal _ Hnd (kb :: rest)
                (incl_refl _)).
  rewrite E. reflexivity.
Qed.

Lemma synthesize_for_model_clause (model : Model) :
  is_model model = true ->
  NoDup (keys model) ->
  model <> [] ->
  _synthesize_for_model model = Ok (dnf_clause model).
Proof.
  intros Hm Hnd Hne. rewrite synthesize_for_model_join by assumption.
  unfold dnf_clause, joined. destruct model; [contradiction | reflexivity].
Qed.

Lemma synthesize_for_all_except_model_clause (model : Model) :
  is_model model = true ->
  NoDup (keys model) ->
  model <> [] ->
  _synthesize_for_all_except_model model = Ok (cnf_clause model).
Proof.
  intros Hm Hnd Hne.
  rewrite synthesize_for_all_except_model_join by assumption.
  unfold cnf_clause, joined. destruct model; [contradiction | reflexivity].
Qed.

Lemma build_model_not_empty (n i : nat) (vs : list string) :
  vs <> [] -> build_model n i vs <> [].
Proof.
  destruct vs as [|v vs]; [contradiction|]. intros _ E.
  assert (H : In v (keys (build_model n i (v :: vs))))
    by (apply keys_build_model; now left).
  rewrite E in H. exact H.
Qed.

Lemma enumerate_map_seq {A : Type} (f : nat -> A) (len : nat) :
  enumerate (map f (seq 0 len)) = map (fun i => (i, f i)) (seq 0 len).
Proof.
  unfold enumerate. rewrite length_map, length_seq.
  generalize 0 as s. induction len as [|len IH]; intros s; simpl;
    [reflexivity|].
  now rewrite IH.
Qed.

Lemma list_getitem_Ok {A : Type} (l : list A) (i : nat) (d : A) :
  i < length l -> list_getitem l i = Ok (nth i l d).
Proof.
  intros H. unfold list_getitem. now rewrite (nth_error_nth' l d H).
Qed.

Lemma list_getitem_IndexError {A : Type} (l : list A) (i : nat) :
  length l <= i -> list_getitem l i = Raise IndexError.
Proof.
  intros H. unfold list_getitem. apply nth_error_None in H. now rewrite H.
Qed.

Lemma for_each_app {A S : Type} (l1 l2 : list A)
  (body : S -> A -> result S) :
  forall s,
    for_each (l1 ++ l2) body s
    = (s' <- for_each l1 body s ;; for_each l2 body s').
Proof.
  induction l1 as [|a l1 IH]; intros s; simpl; [reflexivity|].
  destruct (body s a); simpl; [apply IH | reflexivity].
Qed.

(** The loop over the enumerated models, for a clause builder [mk] and a
    test [sel] on the value at the index of the model. *)
Section ClauseLoop.

Variable mk : Model -> result Formula.
Variable sel : bool -> bool.
Variable values : list bool.
Variable build : nat -> Model.
Variable clause : nat -> Formula.

Lemma clause_loop_Ok (l : list nat) :
  (forall i, In i l -> i < length values) ->
  (forall i, In i l -> mk (build i) = Ok (clause i)) ->
  forall acc,
    for_each (map (fun i => (i, build i)) l)
      (fun (acc : list Formula) (im : nat * Model) =>
         let '(i, m) := im in
         v <- list_getitem values i ;;
         if sel v then c <- mk m ;; Ok (acc ++ [c]) else Ok acc)
      acc
    = Ok (acc ++ map clause (filter (fun i => sel (nth i values false)) l)).
Proof.
  induction l as [|i l IH]; intros Hlen Hmk acc; simpl.
  - now rewrite app_nil_r.
  - rewrite (list_getitem_Ok values i false) by (apply Hlen; now left).
    cbn [bind]. destruct (sel (nth i values false)).
    + rewrite Hmk by now left. cbn [bind].
      rewrite IH
        by (intros; first [apply Hlen; now right | apply Hmk; now right]).
      simpl. now rewrite <- app_assoc.
    + apply IH; intros; first [apply Hlen; now right | apply Hmk; now right].
Qed.

Lemma clause_loop_IndexError (l1 l2 : list nat) (i : nat) :
  (forall k, In k l1 -> k < length values) ->
  (forall k, In k l1 -> mk (build k) = Ok (clause k)) ->
  length values <= i ->
  forall acc,
    for_each (map (fun i => (i, build i)) (l1 ++ i :: l2))
      (fun (acc : list Formula) (im : nat * Model) =>
         let '(i, m) := im in
         v <- list_getitem values i ;;
         if sel v then c <- mk m ;; Ok (acc ++ [c]) else Ok acc)
      acc
    = Raise IndexError.
Proof.
  intros Hlen Hmk Hi acc. rewrite map_app, for_each_app.
  rewrite clause_loop_Ok by assumption. cbn [bind map for_each].
  now rewrite list_getitem_IndexError.
Qed.

End ClauseLoop.

Lemma seq_split_at (len n : nat) :
  len < n -> seq 0 n = seq 0 len ++ len :: seq (S len) (n - S len).
Proof.
  intros H. replace n with (len + S (n - S len)) at 1 by lia.
  now rewrite seq_app.
Qed.

Lemma nonempty_length (vs : list string) :
  vs <> [] -> (0 <? length vs)%nat = true.
Proof. destruct vs; [contradiction | reflexivity]. Qed.

(** What [synthesize] returns when there are enough values: the clauses of
    the models whose value is true, joined by ['|'], or [(p&~p)]. *)
Lemma synthesize_Ok (vs : list string) (values : list bool) :
  vs <> [] ->
  forallb is_variable vs = true ->
  2 ^ length vs <= length values ->
  synthesize vs values =
  Ok (joined "|"
        (map (fun i => dnf_clause (build_model (length vs) i vs))
           (filter (fun i => nth i values false) (seq 0 (2 ^ length vs))))
        (Bin "&" (Atom "p") (Un "~" (Atom "p")))).
Proof.
  intros Hne Hvars Hlen. unfold synthesize.
  rewrite (nonempty_length vs Hne), (all_models_Ok vs Hvars).
  cbn [assert bind]. cbv zeta. rewrite enumerate_map_seq.
  set (loop := for_each _ _ _).
  assert (E : loop =
              Ok ([] ++ map (fun i => dnf_clause (build_model (length vs) i vs))
                    (filter (fun i => nth i values false)
                       (seq 0 (2 ^ length vs))))).
  { apply (clause_loop_Ok _synthesize_for_model (fun v => v)).
    - intros i Hi. apply in_seq in Hi. lia.
    - intros i _. apply synthesize_for_model_clause.
      + now apply is_model_build_model.
      + apply NoDup_keys_build_model.
      + now apply build_model_not_empty. }
  rewrite E. cbn [app bind]. unfold joined, join.
  now destruct (map _ (filter _ _)).
Qed.

Lemma synthesize_cnf_Ok (vs : list string) (values : list bool) :
  vs <> [] ->
  forallb is_variable vs = true ->
  2 ^ length vs <= length values ->
  synthesize_cnf vs values =
  Ok (joined "&"
        (map (fun i => cnf_clause (build_model (length vs) i vs))
           (filter (fun i => negb (nth i values false))
              (seq 0 (2 ^ length vs))))
        (Bin "|" (Atom "p") (Un "~" (Atom "p")))).
Proof.
  intros Hne Hvars Hlen. unfold synthesize_cnf.
  rewrite (nonempty_length vs Hne), (all_models_Ok vs Hvars).
  cbn [assert bind]. cbv zeta. rewrite enumerate_map_seq.
  set (loop := for_each _ _ _).
  assert (E : loop =
              Ok ([] ++ map (fun i => cnf_clause (build_model (length vs) i vs))
                    (filter (fun i => negb (nth i values false))
                       (seq 0 (2 ^ length vs))))).
  { apply (clause_loop_Ok _synthesize_for_all_except_model negb).
    - intros i Hi. apply in_seq in Hi. lia.
    - intros i _. apply synthesize_for_all_except_model_clause.
      + now apply is_model_build_model.
      + apply NoDup_keys_build_model.
      + now apply build_model_not_empty. }
  rewrite E. cbn [app bind]. unfold joined, join.
  now destruct (map _ (filter _ _)).
Qed.

(** With too few values the loop reaches an index that the list of values
    does not have. *)
Lemma synthesize_IndexError (vs : list string) (values : list bool) :
  vs <> [] ->
  forallb is_variable vs = true ->
  length values < 2 ^ length vs ->
  synthesize vs values = Raise IndexError.
Proof.
  intros Hne Hvars Hlen. unfold synthesize.
  rewrite (nonempty_length vs Hne), (all_models_Ok vs Hvars).
  cbn [assert bind]. cbv zeta. rewrite enumerate_map_seq.
  rewrite (seq_split_at (length values)) by assumption.
  set (loop := for_each _ _ _).
  assert (E : loop = Raise IndexError).
  { apply (clause_loop_IndexError _synthesize_for_model (fun v => v) values
             (fun i => build_model (length vs) i vs)
             (fun i => dnf_clause (build_model (length vs) i vs))).
    - intros i Hi. apply in_seq in Hi. lia.
    - intros i _. apply synthesize_for_model_clause.
      + now apply is_model_build_model.
      + apply NoDup_keys_build_model.
      + now apply build_model_not_empty.
    - apply Nat.le_refl. }
  now rewrite E.
Qed.

Lemma synthesize_cnf_IndexError (vs : list string) (values : list bool) :
  vs <> [] ->
  forallb is_variable vs = true ->
  length values < 2 ^ length vs ->
  synthesize_cnf vs values = Raise IndexError.
Proof.
  intros Hne Hvars Hlen. unfold synthesize_cnf.
  rewrite (nonempty_length vs Hne), (all_models_Ok vs Hvars).
  cbn [assert bind]. cbv zeta. rewrite enumerate_map_seq.
  rewrite (seq_split_at (length values)) by assumption.
  set (loop := for_each _ _ _).
  assert (E : loop = Raise IndexError).
  { apply (clause_loop_IndexError _synthesize_for_all_except_model negb
             values
             (fun i => build_model (length vs) i vs)
             (fun i => cnf_clause (build_model (length vs) i vs))).
    - intros i Hi. apply in_seq in Hi. lia.
    - intros i _. apply synthesize_for_all_except_model_clause.
      + now apply is_model_build_model.
      + apply NoDup_keys_build_model.
      + now apply build_model_not_empty.
    - apply Nat.le_refl. }
  now rewrite E.
Qed.

(** ** The edge cases of the synthesizers *)

Lemma filter_nil {A : Type} (p : A -> bool) (l : list A) :
  (forall x, In x l -> p x = false) -> filter p l = [].
Proof.
  induction l as [|x l IH]; intros H; simpl; [reflexivity|].
  rewrite (H x) by now left. apply IH. intros y Hy. apply H. now right.
Qed.

Lemma synthesize_all_false (vs : list string) (values : list bool) :
  vs <> [] ->
  forallb is_variable vs = true ->
  length values = 2 ^ length vs ->
  (forall b, In b values -> b = false) ->
  synthesize vs values = Ok (Bin "&" (Atom "p") (Un "~" (Atom "p"))).
Proof.
  intros Hne Hvars Hlen Hall.
  rewrite synthesize_Ok by (assumption || lia).
  rewrite filter_nil; [reflexivity|].
  intros i _. destruct (nth_in_or_default i values false) as [Hin | E];
    [now apply Hall | exact E].
Qed.

Lemma synthesize_cnf_all_true (vs : list string) (values : list bool) :
  vs <> [] ->
  forallb is_variable vs = true ->
  length values = 2 ^ length vs ->
  (forall b, In b values -> b = true) ->
  synthesize_cnf vs values = Ok (Bin "|" (Atom "p") (Un "~" (Atom "p"))).
Proof.
  intros Hne Hvars Hlen Hall.
  rewrite synthesize_cnf_Ok by (assumption || lia).
  rewrite filter_nil; [reflexivity|].
  intros i Hi. apply in_seq in Hi.
  rewrite (Hall (nth i values false)); [reflexivity|].
  apply nth_In. lia.
Qed.

(** ** C10: the formula returned in the edge cases *)

(** C10: when every entry of [values] is false, [synthesize] returns exactly
    [(p&~p)], and when every entry is true, [synthesize_cnf] returns exactly
    [(p|~p)], whether or not ['p'] is among the given names; the variable
    set of the returned formula is [{'p'}], which is not a subset of the
    given names when ['p'] is not one of them. *)
Theorem synthesize_edge_case_formula (vs : list string)
  (values : list bool) :
  vs <> [] ->
  forallb is_variable vs = true ->
  length values = 2 ^ length vs ->
  ((forall b, In b values -> b = false) ->
   exists f,
     synthesize vs values = Ok f /\
     f = Bin "&" (Atom "p") (Un "~" (Atom "p")) /\
     formula_variables f = ["p"] /\
     (~ In "p" vs -> ~ incl (formula_variables f) vs)) /\
  ((forall b, In b values -> b = true) ->
   exists f,
     synthesize_cnf vs values = Ok f /\
     f = Bin "|" (Atom "p") (Un "~" (Atom "p")) /\
     formula_variables f = ["p"] /\
     (~ In "p" vs -> ~ incl (formula_variables f) vs)).
Proof.
  intros Hne Hvars Hlen. split; intros Hall; eexists; split.
  - now apply synthesize_all_false.
  - repeat split. intros Hp Hincl. apply Hp, Hincl. now left.
  - now apply synthesize_cnf_all_true.
  - repeat split. intros Hp Hincl. apply Hp, Hincl. now left.
Qed.

Lemma synthesize_edge_case_formula_witness :
  (exists f,
      synthesize ["q"] [false; false] = Ok f /\
      f = Bin "&" (Atom "p") (Un "~" (Atom "p")) /\
      formula_variables f = ["p"] /\
      ~ incl (formula_variables f) ["q"]) /\
  (exists f,
      synthesize_cnf ["q"] [true; true] = Ok f /\
      f = Bin "|" (Atom "p") (Un "~" (Atom "p")) /\
      formula_variables f = ["p"] /\
      ~ incl (formula_variables f) ["q"]).
Proof.
  assert (Hq : ~ In "p" ["q"]) by (intros [E | []]; discriminate E).
  assert (Hne : ["q"] <> []) by discriminate.
  split.
  - destruct (proj1 (synthesize_edge_case_formula ["q"] [false; false]
                       Hne eq_refl eq_refl))
      as [f [Hf [Hshape [Hv Hsub]]]].
    + intros b [<- | [<- | []]]; reflexivity.
    + exists f. auto.
  - destruct (proj2 (synthesize_edge_case_formula ["q"] [true; true]
                       Hne eq_refl eq_refl))
      as [f [Hf [Hshape [Hv Hsub]]]].
    + intros b [<- | [<- | []]]; reflexivity.
    + exists f. auto.
Defined.

(** ** C8: the value of the formula returned in the edge cases *)

(** C8: for a nonempty list of variable names, when every entry of [values]
    is false the formula that [synthesize] returns evaluates to false under
    every model over its variables, and when every entry is true the formula
    that [synthesize_cnf] returns evaluates to true under every model over
    its variables. *)
Theorem synthesize_edge_case_value (vs : list string) (values : list bool) :
  vs <> [] ->
  forallb is_variable vs = true ->
  length values = 2 ^ length vs ->
  ((forall b, In b values -> b = false) ->
   exists f,
     synthesize vs values = Ok f /\
     forall m,
       is_model m = true ->
       issubset (formula_variables f) (keys m) = true ->
       evaluate f m = Ok false) /\
  ((forall b, In b values -> b = true) ->
   exists f,
     synthesize_cnf vs values = Ok f /\
     forall m,
       is_model m = true ->
       issubset (formula_variables f) (keys m) = true ->
       evaluate f m = Ok true).
Proof.
  intros Hne Hvars Hlen. split; intros Hall; eexists; split.
  - now apply synthesize_all_false.
  - intros m Hm Hsub. rewrite evaluate_truth; [| reflexivity | assumption..].
    cbn. now destruct (value_in m "p").
  - now apply synthesize_cnf_all_true.
  - intros m Hm Hsub. rewrite evaluate_truth; [| reflexivity | assumption..].
    cbn. now destruct (value_in m "p").
Qed.

Lemma synthesize_edge_case_value_witness :
  (exists f,
      synthesize ["q"; "r"] [false; false; false; false] = Ok f /\
      forall m,
        is_model m = true ->
        issubset (formula_variables f) (keys m) = true ->
        evaluate f m = Ok false) /\
  (exists f,
      synthesize_cnf ["q"; "r"] [true; true; true; true] = Ok f /\
      forall m,
        is_model m = true ->
        issubset (formula_variables f) (keys m) = true ->
        evaluate f m = Ok true).
Proof.
  assert (Hne : ["q"; "r"] <> []) by discriminate.
  split.
  - apply (proj1 (synthesize_edge_case_value ["q"; "r"]
                    [false; false; false; false] Hne eq_refl eq_refl)).
    intros b [<- | [<- | [<- | [<- | []]]]]; reflexivity.
  - apply (proj2 (synthesize_edge_case_value ["q"; "r"]
                    [true; true; true; true] Hne eq_refl eq_refl)).
    intros b [<- | [<- | [<- | [<- | []]]]]; reflexivity.
Defined.

(** ** C7: calls that break the preconditions of the synthesizers *)

(** C7, as stated, fails: with one variable name and three values the
    length of [values] differs from [2^1], and both synthesizers return a
    formula. *)
Lemma synthesize_surplus_values_returns :
  length [true; false; true] <> 2 ^ length ["p"] /\
  synthesize ["p"] [true; false; true] = Ok (Un "~" (Atom "p")) /\
  synthesize_cnf ["p"] [true; false; true] = Ok (Un "~" (Atom "p")).
Proof.
  split; [discriminate | split; reflexivity].
Qed.

Lemma synthesize_ignores_surplus (vs : list string) (values : list bool) :
  vs <> [] ->
  forallb is_variable vs = true ->
  2 ^ length vs <= length values ->
  synthesize vs values = synthesize vs (firstn (2 ^ length vs) values) /\
  synthesize_cnf vs values
  = synthesize_cnf vs (firstn (2 ^ length vs) values).
Proof.
  intros Hne Hvars Hlen.
  assert (Hfirst : length (firstn (2 ^ length vs) values) = 2 ^ length vs)
    by now apply firstn_length_le.
  rewrite !synthesize_Ok, !synthesize_cnf_Ok by (assumption || lia).
  split; do 3 f_equal; apply filter_ext_in; intros i Hi;
    apply in_seq in Hi; rewrite nth_firstn;
    destruct (Nat.ltb_spec i (2 ^ length vs)); (reflexivity || lia).
Qed.

(** C7, amended: a call of [synthesize] or [synthesize_cnf] with an empty
    variable list fails the assertion, and a call with variable names and
    fewer than [2^len(variable_names)] values raises [IndexError], in both
    cases without returning a result; a call with more values than that
    signals nothing: it returns the formula of the first
    [2^len(variable_names)] values. *)
Theorem synthesize_precondition_violations (vs : list string)
  (values : list bool) :
  forallb is_variable vs = true ->
  (vs = [] ->
   synthesize vs values = Raise AssertionError /\
   synthesize_cnf vs values = Raise AssertionError) /\
  (vs <> [] ->
   length values < 2 ^ length vs ->
   synthesize vs values = Raise IndexError /\
   synthesize_cnf vs values = Raise IndexError) /\
  (vs <> [] ->
   2 ^ length vs < length values ->
   exists f g,
     synthesize vs values = Ok f /\
     synthesize_cnf vs values = Ok g /\
     synthesize vs (firstn (2 ^ length vs) values) = Ok f /\
     synthesize_cnf vs (firstn (2 ^ length vs) values) = Ok g).
Proof.
  intros Hvars. split; [| split].
  - intros ->. split; reflexivity.
  - intros Hne Hlen. split;
      [now apply synthesize_IndexError | now apply synthesize_cnf_IndexError].
  - intros Hne Hlen.
    assert (Hle : 2 ^ length vs <= length values) by lia.
    destruct (synthesize_ignores_surplus vs values Hne Hvars Hle) as [<- <-].
    rewrite synthesize_Ok, synthesize_cnf_Ok by (assumption || lia).
    do 2 eexists. repeat split; reflexivity.
Qed.

Lemma synthesize_precondition_violations_witness :
  (synthesize [] [true] = Raise AssertionError /\
   synthesize_cnf [] [true] = Raise AssertionError) /\
  (synthesize ["p"; "q"] [true; false; true] = Raise IndexError /\
   synthesize_cnf ["p"; "q"] [true; false; true] = Raise IndexError) /\
  (exists f g,
      synthesize ["p"] [true; false; true] = Ok f /\
      synthesize_cnf ["p"] [true; false; true] = Ok g /\
      synthesize ["p"] (firstn (2 ^ length ["p"]) [true; false; true])
      = Ok f /\
      synthesize_cnf ["p"] (firstn (2 ^ length ["p"]) [true; false; true])
      = Ok g).
Proof.
  split; [| split].
  - exact (proj1 (synthesize_precondition_violations [] [true] eq_refl)
             eq_refl).
  - apply (proj1 (proj2 (synthesize_precondition_violations ["p"; "q"]
                           [true; false; true] eq_refl))).
    + discriminate.
    + simpl. repeat constructor.
  - apply (proj2 (proj2 (synthesize_precondition_violations ["p"]
                           [true; false; true] eq_refl))).
    + discriminate.
    + simpl. repeat constructor.
Defined.

(** ** Truth values of the synthesized formulas *)

Lemma forallb_map_in {A B : Type} (f : B -> bool) (g : A -> B)
  (h : A -> bool) (l : list A) :
  (forall x, In x l -> f (g x) = h x) -> forallb f (map g l) = forallb h l.
Proof.
  induction l as [|x l IH]; intros H; simpl; [reflexivity|].
  rewrite (H x) by now left. f_equal. apply IH. intros y Hy. apply H.
  now right.
Qed.

Lemma existsb_map_in {A B : Type} (f : B -> bool) (g : A -> B)
  (h : A -> bool) (l : list A) :
  (forall x, In x l -> f (g x) = h x) -> existsb f (map g l) = existsb h l.
Proof.
  induction l as [|x l IH]; intros H; simpl; [reflexivity|].
  rewrite (H x) by now left. f_equal. apply IH. intros y Hy. apply H.
  now right.
Qed.

Lemma existsb_negb_forallb {A : Type} (f : A -> bool) (l : list A) :
  existsb (fun x => negb (f x)) l = negb (forallb f l).
Proof.
  induction l as [|x l IH]; simpl; [reflexivity|].
  rewrite IH. now destruct (f x).
Qed.

Lemma forallb_negb_existsb {A : Type} (f : A -> bool) (l : list A) :
  forallb (fun x => negb (f x)) l = negb (existsb f l).
Proof.
  induction l as [|x l IH]; simpl; [reflexivity|].
  rewrite IH. now destruct (f x).
Qed.

Lemma truth_fold_and (a : string -> bool) (fs : list Formula) :
  forall f,
    truth a (fold_left (Bin "&") fs f) = truth a f && forallb (truth a) fs.
Proof.
  induction fs as [|g fs IH]; intros f; simpl.
  - now rewrite andb_true_r.
  - rewrite IH. cbn [truth]. unfold binary_value. simpl.
    now rewrite andb_assoc.
Qed.

Lemma truth_fold_or (a : string -> bool) (fs : list Formula) :
  forall f,
    truth a (fold_left (Bin "|") fs f) = truth a f || existsb (truth a) fs.
Proof.
  induction fs as [|g fs IH]; intros f; simpl.
  - now rewrite orb_false_r.
  - rewrite IH. cbn [truth]. unfold binary_value. simpl.
    now rewrite orb_assoc.
Qed.

Lemma truth_joined_or (a : string -> bool) (fs : list Formula) :
  truth a (joined "|" fs (Bin "&" (Atom "p") (Un "~" (Atom "p"))))
  = existsb (truth a) fs.
Proof.
  destruct fs as [|f fs]; unfold joined; cbn [join].
  - cbn. apply andb_negb_r.
  - apply truth_fold_or.
Qed.

Lemma truth_joined_and (a : string -> bool) (fs : list Formula) :
  truth a (joined "&" fs (Bin "|" (Atom "p") (Un "~" (Atom "p"))))
  = forallb (truth a) fs.
Proof.
  destruct fs as [|f fs]; unfold joined; cbn [join].
  - cbn. apply orb_negb_r.
  - apply truth_fold_and.
Qed.

Lemma truth_dnf_literal (a : string -> bool) (kb : string * bool) :
  is_variable (fst kb) = true ->
  truth a (dnf_literal kb) = Bool.eqb (a (fst kb)) (snd kb).
Proof.
  destruct kb as [k [|]]; unfold dnf_literal; simpl; intros ->;
    now destruct (a k).
Qed.

Lemma truth_cnf_literal (a : string -> bool) (kb : string * bool) :
  is_variable (fst kb) = true ->
  truth a (cnf_literal kb) = negb (Bool.eqb (a (fst kb)) (snd kb)).
Proof.
  destruct kb as [k [|]]; unfold cnf_literal; simpl; intros ->;
    now destruct (a k).
Qed.

Lemma is_model_In (m : Model) (kb : string * bool) :
  is_model m = true -> In kb m -> is_variable (fst kb) = true.
Proof.
  unfold is_model. rewrite forallb_forall. intros H Hin.
  apply H. now apply in_map.
Qed.

Lemma truth_dnf_clause (a : string -> bool) (m : Model) :
  is_model m = true -> m <> [] -> truth a (dnf_clause m) = agrees a m.
Proof.
  intros Hm Hne. destruct m as [|kb rest]; [contradiction|].
  unfold dnf_clause, joined, agrees. cbn [map join forallb].
  rewrite truth_fold_and, truth_dnf_literal by (apply (is_model_In _ _ Hm); now left).
  f_equal. apply forallb_map_in. intros x Hx.
  apply truth_dnf_literal, (is_model_In _ _ Hm). now right.
Qed.

Lemma truth_cnf_clause (a : string -> bool) (m : Model) :
  is_model m = true -> m <> [] -> truth a (cnf_clause m) = negb (agrees a m).
Proof.
  intros Hm Hne. destruct m as [|kb rest]; [contradiction|].
  unfold cnf_clause, joined, agrees. cbn [map join forallb].
  rewrite truth_fold_or, truth_cnf_literal by (apply (is_model_In _ _ Hm); now left).
  rewrite negb_andb. f_equal. rewrite <- existsb_negb_forallb.
  apply existsb_map_in. intros x Hx.
  apply truth_cnf_literal, (is_model_In _ _ Hm). now right.
Qed.

(** Well-formedness and variables of joined formulas. *)

Lemma well_formed_fold (op : string) (fs : list Formula) :
  is_binary op = true ->
  (forall g, In g fs -> well_formed g = true) ->
  forall f,
    well_formed f = true -> well_formed (fold_left (Bin op) fs f) = true.
Proof.
  intros Hop. induction fs as [|g fs IH]; intros Hfs f Hf; simpl;
    [exact Hf|].
  apply IH; [intros; apply Hfs; now right|].
  simpl. rewrite Hop, Hf, (Hfs g) by now left. reflexivity.
Qed.

Lemma well_formed_joined (op : string) (fs : list Formula)
  (otherwise : Formula) :
  is_binary op = true ->
  (forall g, In g fs -> well_formed g = true) ->
  well_formed otherwise = true ->
  well_formed (joined op fs otherwise) = true.
Proof.
  intros Hop Hfs Ho. unfold joined. destruct fs as [|f fs]; cbn [join];
    [exact Ho|].
  apply well_formed_fold; [exact Hop | intros; apply Hfs; now right |].
  apply Hfs. now left.
Qed.

Lemma occurrences_fold (op : string) (fs : list Formula)
  (names : list string) :
  (forall g, In g fs -> incl (variable_occurrences g) names) ->
  forall f,
    incl (variable_occurrences f) names ->
    incl (variable_occurrences (fold_left (Bin op) fs f)) names.
Proof.
  induction fs as [|g fs IH]; intros Hfs f Hf; simpl; [exact Hf|].
  apply IH; [intros; apply Hfs; now right|].
  simpl. apply incl_app; [exact Hf | apply Hfs; now left].
Qed.

Lemma occurrences_joined (op : string) (fs : list Formula)
  (otherwise : Formula) (names : list string) :
  (forall g, In g fs -> incl (variable_occurrences g) names) ->
  (fs = [] -> incl (variable_occurrences otherwise) names) ->
  incl (variable_occurrences (joined op fs otherwise)) names.
Proof.
  intros Hfs Ho. unfold joined. destruct fs as [|f fs]; cbn [join];
    [now apply Ho|].
  apply occurrences_fold; [intros; apply Hfs; now right|].
  apply Hfs. now left.
Qed.

Lemma well_formed_dnf_clause (m : Model) :
  is_model m = true -> well_formed (dnf_clause m) = true.
Proof.
  intros Hm. apply well_formed_joined; try reflexivity.
  intros g Hg. apply in_map_iff in Hg as [[k b] [<- Hin]].
  pose proof (is_model_In _ _ Hm Hin) as Hk. simpl in Hk.
  unfold dnf_literal. destruct b; simpl; now rewrite Hk.
Qed.

Lemma well_formed_cnf_clause (m : Model) :
  is_model m = true -> well_formed (cnf_clause m) = true.
Proof.
  intros Hm. apply well_formed_joined; try reflexivity.
  intros g Hg. apply in_map_iff in Hg as [[k b] [<- Hin]].
  pose proof (is_model_In _ _ Hm Hin) as Hk. simpl in Hk.
  unfold cnf_literal. destruct b; simpl; now rewrite Hk.
Qed.

Lemma occurrences_dnf_clause (m : Model) :
  incl (variable_occurrences (dnf_clause m)) (keys m).
Proof.
  apply occurrences_joined; [| intros _ x []].
  intros g Hg. apply in_map_iff in Hg as [[k b] [<- Hin]].
  assert (Hk : In k (keys m)) by (change k with (fst (k, b)); now apply in_map).
  unfold dnf_literal. destruct b; simpl; destruct (is_variable k);
    intros x Hx; try destruct Hx as [<- | []]; try contradiction; exact Hk.
Qed.

Lemma occurrences_cnf_clause (m : Model) :
  incl (variable_occurrences (cnf_clause m)) (keys m).
Proof.
  apply occurrences_joined; [| intros _ x []].
  intros g Hg. apply in_map_iff in Hg as [[k b] [<- Hin]].
  assert (Hk : In k (keys m)) by (change k with (fst (k, b)); now apply in_map).
  unfold cnf_literal. destruct b; simpl; destruct (is_variable k);
    intros x Hx; try destruct Hx as [<- | []]; try contradiction; exact Hk.
Qed.

(** Two models of the enumeration agree exactly when they are the same
    model. *)
Lemma agrees_assignment (vs : list string) (i k : nat) :
  NoDup vs ->
  i < 2 ^ length vs ->
  k < 2 ^ length vs ->
  agrees (value_in (combine vs (bits (length vs) k)))
    (combine vs (bits (length vs) i))
  = (i =? k)%nat.
Proof.
  intros Hnd Hi Hk. set (n := length vs).
  assert (Hkeys : forall c, NoDup (keys (combine vs (bits n c))))
    by (intros c; now rewrite keys_combine by apply length_bits).
  destruct (Nat.eqb_spec i k) as [-> | Hneq].
  - apply forallb_forall. intros [v b] Hin. simpl. unfold value_in.
    rewrite (getitem_NoDup_In _ v b (Hkeys k) Hin). apply eqb_reflx.
  - apply not_true_is_false. intros H. apply Hneq.
    unfold agrees in H. rewrite forallb_forall in H.
    apply (index_of_bits_unique n); try assumption.
    intros c Hc.
    assert (Hj : nth_error vs (n - 1 - c) = Some (nth (n - 1 - c) vs ""))
      by (apply nth_error_nth'; fold n; lia).
    assert (Hin : In (nth (n - 1 - c) vs "", Nat.testbit i c)
                    (combine vs (bits n i))).
    { apply (nth_error_combine_In _ _ (n - 1 - c)); [exact Hj|].
      unfold bits. apply nth_error_map_seq. split; [lia|].
      f_equal. lia. }
    apply H in Hin. simpl in Hin. apply eqb_prop in Hin.
    rewrite <- Hin. unfold value_in.
    pose proof (getitem_assignment vs k _ _ Hnd Hj) as Hg. fold n in Hg.
    rewrite Hg. f_equal. lia.
Qed.

Lemma existsb_eqb_filter (p : nat -> bool) (l : list nat) (k : nat) :
  In k l -> existsb (fun i => (i =? k)%nat) (filter p l) = p k.
Proof.
  intros Hk. destruct (p k) eqn:Hp.
  - apply existsb_exists. exists k. split; [| apply Nat.eqb_refl].
    apply filter_In. now split.
  - apply not_true_is_false. intros H.
    apply existsb_exists in H as [i [Hi He]]. apply Nat.eqb_eq in He.
    subst i. apply filter_In in Hi as [_ Hi]. congruence.
Qed.

Lemma map_nth_seq (values : list bool) :
  map (fun k => nth k values false) (seq 0 (length values)) = values.
Proof.
  induction values as [|b values IH]; simpl; [reflexivity|].
  f_equal. rewrite <- seq_shift, map_map. exact IH.
Qed.

Lemma map_evaluate_truth (formula : Formula) (ms : list Model) :
  well_formed formula = true ->
  Forall (covering formula) ms ->
  map (evaluate formula) ms
  = map (fun m => Ok (truth (value_in m) formula)) ms.
Proof.
  intros Hwf. induction 1 as [|m ms [Hm Hs] _ IH]; simpl; [reflexivity|].
  now rewrite (evaluate_truth _ _ Hwf Hm Hs), IH.
Qed.

(** Every model of the enumeration covers the formula joined from clauses
    of models of the enumeration, provided the formula returned for no
    clause has its variables among the names. *)
Lemma covering_joined (op : string) (cl : Model -> Formula)
  (otherwise : Formula) (vs : list string) (l : list nat) (n k : nat) :
  forallb is_variable vs = true ->
  (forall m, incl (variable_occurrences (cl m)) (keys m)) ->
  (l = [] -> incl (variable_occurrences otherwise) vs) ->
  covering (joined op (map (fun i => cl (build_model n i vs)) l) otherwise)
    (build_model n k vs).
Proof.
  intros Hvars Hcl Ho. split; [now apply is_model_build_model|].
  apply issubset_formula_variables, occurrences_joined.
  - intros g Hg. apply in_map_iff in Hg as [i [<- _]].
    intros x Hx. apply keys_build_model.
    eapply keys_build_model, Hcl, Hx.
  - intros E x Hx. apply map_eq_nil in E.
    apply keys_build_model. now apply Ho.
Qed.

Lemma filter_true_not_nil (values : list bool) :
  In true values ->
  filter (fun i => nth i values false) (seq 0 (length values)) <> [].
Proof.
  intros Hin E. destruct (In_nth _ _ false Hin) as [i [Hi Hv]].
  assert (H : In i (filter (fun i => nth i values false)
                      (seq 0 (length values)))).
  { apply filter_In. split; [apply in_seq; lia | exact Hv]. }
  now rewrite E in H.
Qed.

Lemma filter_false_not_nil (values : list bool) :
  In false values ->
  filter (fun i => negb (nth i values false)) (seq 0 (length values)) <> [].
Proof.
  intros Hin E. destruct (In_nth _ _ false Hin) as [i [Hi Hv]].
  assert (H : In i (filter (fun i => negb (nth i values false))
                      (seq 0 (length values)))).
  { apply filter_In. split; [apply in_seq; lia | now rewrite Hv]. }
  now rewrite E in H.
Qed.

(** ** C4: the values of a synthesized formula in the models *)

(** Over names without repetition, the formula of [synthesize] has the
    given values in the models of the names, in order, as soon as the
    models cover its variables: some value is true, or ['p'] is one of the
    names. *)
Lemma synthesize_values_in_models (vs : list string) (values : list bool) :
  vs <> [] ->
  forallb is_variable vs = true ->
  NoDup vs ->
  length values = 2 ^ length vs ->
  In true values \/ In "p" vs ->
  exists f ms,
    synthesize vs values = Ok f /\
    all_models vs = Ok ms /\
    map (evaluate f) ms = map Ok values.
Proof.
  intros Hne Hvars Hnd Hlen Hcover.
  rewrite synthesize_Ok, all_models_Ok by (assumption || lia).
  do 2 eexists. split; [reflexivity | split; [reflexivity|]].
  rewrite map_evaluate_truth.
  - rewrite map_map.
    transitivity (map (@Ok bool)
                    (map (fun k => nth k values false)
                       (seq 0 (length values))));
      [| now rewrite map_nth_seq].
    rewrite map_map, Hlen. apply map_ext_in. intros k Hk. f_equal.
    rewrite truth_joined_or.
    rewrite (existsb_map_in _ _ (fun i => (i =? k)%nat)).
    + now apply existsb_eqb_filter.
    + intros i Hi. apply filter_In in Hi as [Hi _].
      apply in_seq in Hi, Hk.
      rewrite truth_dnf_clause
        by (now apply is_model_build_model || now apply build_model_not_empty).
      rewrite !build_model_NoDup by assumption.
      apply agrees_assignment; (assumption || lia).
  - apply well_formed_joined; try reflexivity.
    intros g Hg. apply in_map_iff in Hg as [i [<- _]].
    now apply well_formed_dnf_clause, is_model_build_model.
  - apply Forall_forall. intros m Hm. apply in_map_iff in Hm as [k [<- _]].
    apply (covering_joined "|" dnf_clause); try assumption.
    + apply occurrences_dnf_clause.
    + intros E. destruct Hcover as [Htrue | Hp].
      * apply filter_true_not_nil in Htrue. rewrite Hlen in Htrue.
        contradiction.
      * intros x [<- | [<- | []]]; exact Hp.
Qed.

Lemma synthesize_cnf_values_in_models (vs : list string)
  (values : list bool) :
  vs <> [] ->
  forallb is_variable vs = true ->
  NoDup vs ->
  length values = 2 ^ length vs ->
  In false values \/ In "p" vs ->
  exists f ms,
    synthesize_cnf vs values = Ok f /\
    all_models vs = Ok ms /\
    map (evaluate f) ms = map Ok values.
Proof.
  intros Hne Hvars Hnd Hlen Hcover.
  rewrite synthesize_cnf_Ok, all_models_Ok by (assumption || lia).
  do 2 eexists. split; [reflexivity | split; [reflexivity|]].
  rewrite map_evaluate_truth.
  - rewrite map_map.
    transitivity (map (@Ok bool)
                    (map (fun k => nth k values false)
                       (seq 0 (length values))));
      [| now rewrite map_nth_seq].
    rewrite map_map, Hlen. apply map_ext_in. intros k Hk. f_equal.
    rewrite truth_joined_and.
    rewrite (forallb_map_in _ _ (fun i => negb (i =? k)%nat)).
    + rewrite forallb_negb_existsb, existsb_eqb_filter by assumption.
      apply negb_involutive.
    + intros i Hi. apply filter_In in Hi as [Hi _].
      apply in_seq in Hi, Hk.
      rewrite truth_cnf_clause
        by (now apply is_model_build_model || now apply build_model_not_empty).
      rewrite !build_model_NoDup by assumption.
      f_equal. apply agrees_assignment; (assumption || lia).
  - apply well_formed_joined; try reflexivity.
    intros g Hg. apply in_map_iff in Hg as [i [<- _]].
    now apply well_formed_cnf_clause, is_model_build_model.
  - apply Forall_forall. intros m Hm. apply in_map_iff in Hm as [k [<- _]].
    apply (covering_joined "&" cnf_clause); try assumption.
    + apply occurrences_cnf_clause.
    + intros E. destruct Hcover as [Hfalse | Hp].
      * apply filter_false_not_nil in Hfalse. rewrite Hlen in Hfalse.
        contradiction.
      * intros x [<- | [<- | []]]; exact Hp.
Qed.

(** C4 at the name ['q'] and the two values false: [synthesize] returns
    [(p&~p)], which is not over the given name, and in each of the two
    models of [all_models(['q'])] its evaluation fails the assertion, where
    the claim and the docstring ("over the given variable names, that has
    the specified truth table") ask for the value false; the same holds for
    [synthesize_cnf] and the two values true. *)
Lemma synthesize_edge_case_not_over_names :
  length [false; false] = 2 ^ length ["q"] /\
  all_models ["q"] = Ok [[("q", false)]; [("q", true)]] /\
  synthesize ["q"] [false; false]
  = Ok (Bin "&" (Atom "p") (Un "~" (Atom "p"))) /\
  map (evaluate (Bin "&" (Atom "p") (Un "~" (Atom "p"))))
    [[("q", false)]; [("q", true)]]
  = [Raise AssertionError; Raise AssertionError] /\
  synthesize_cnf ["q"] [true; true]
  = Ok (Bin "|" (Atom "p") (Un "~" (Atom "p"))) /\
  map (evaluate (Bin "|" (Atom "p") (Un "~" (Atom "p"))))
    [[("q", false)]; [("q", true)]]
  = [Raise AssertionError; Raise AssertionError].
Proof.
  repeat split; reflexivity.
Qed.

(** The round trip where it holds: for a nonempty list of distinct variable
    names, of length [n], and [2^n] values of which one is true, or with
    ['p'] among the names, [evaluate] returns for the formula of
    [synthesize], in the models of [all_models] over the names, in order,
    exactly the given values; and so it does for the formula of
    [synthesize_cnf] when one value is false or ['p'] is among the
    names. *)
Theorem synthesize_evaluates_to_values (vs : list string)
  (values : list bool) :
  vs <> [] ->
  forallb is_variable vs = true ->
  NoDup vs ->
  length values = 2 ^ length vs ->
  (In true values \/ In "p" vs ->
   exists f ms,
     synthesize vs values = Ok f /\
     all_models vs = Ok ms /\
     map (evaluate f) ms = map Ok values) /\
  (In false values \/ In "p" vs ->
   exists f ms,
     synthesize_cnf vs values = Ok f /\
     all_models vs = Ok ms /\
     map (evaluate f) ms = map Ok values).
Proof.
  intros Hne Hvars Hnd Hlen. split; intros Hin.
  - apply synthesize_values_in_models; auto.
  - apply synthesize_cnf_values_in_models; auto.
Qed.

Lemma synthesize_evaluates_to_values_witness :
  (exists f ms,
      synthesize ["p"; "q"] [true; true; true; false] = Ok f /\
      all_models ["p"; "q"] = Ok ms /\
      map (evaluate f) ms = map Ok [true; true; true; false]) /\
  (exists f ms,
      synthesize_cnf ["p"; "q"] [true; true; true; false] = Ok f /\
      all_models ["p"; "q"] = Ok ms /\
      map (evaluate f) ms = map Ok [true; true; true; false]).
Proof.
  assert (Hne : ["p"; "q"] <> []) by discriminate.
  assert (Hnd : NoDup ["p"; "q"])
    by (repeat constructor; simpl; intuition discriminate).
  destruct (synthesize_evaluates_to_values ["p"; "q"]
              [true; true; true; false] Hne eq_refl Hnd eq_refl)
    as [Hdnf Hcnf].
  split; [apply Hdnf | apply Hcnf]; left; simpl; auto.
Defined.

(** ** The classifiers and the order of the variables *)

(** [list(formula.variables())] lists a set, in an order the code does not
    choose.  The results of the classifiers do not depend on it: each is
    settled by the truth values of the formula under all assignments. *)

Lemma model_of_assignment (vs : list string) (a : string -> bool) :
  NoDup vs ->
  exists i,
    i < 2 ^ length vs /\
    forall v, In v vs -> value_in (combine vs (bits (length vs) i)) v = a v.
Proof.
  intros Hnd. set (n := length vs).
  destruct (index_of_bits_exists n (fun k => a (nth (n - 1 - k) vs "")))
    as [i [Hi Hbits]].
  exists i. split; [exact Hi|]. intros v Hv.
  destruct (In_nth_error _ _ Hv) as [j Hj].
  assert (Hjn : j < n) by (apply nth_error_Some; congruence).
  pose proof (getitem_assignment vs i j v Hnd Hj) as Hg. fold n in Hg.
  unfold value_in. rewrite Hg, Hbits by lia.
  replace (n - 1 - (n - 1 - j)) with j by lia.
  f_equal. now apply nth_error_nth.
Qed.

Section AllAssignments.

Variable formula : Formula.
Variable vs : list string.
Hypothesis vs_variables : forallb is_variable vs = true.
Hypothesis vs_NoDup : NoDup vs.
Hypothesis vs_covers : incl (variable_occurrences formula) vs.

Lemma truth_under_some_model (a : string -> bool) :
  exists m,
    In m (map (fun i => build_model (length vs) i vs)
            (seq 0 (2 ^ length vs))) /\
    truth (value_in m) formula = truth a formula.
Proof.
  destruct (model_of_assignment vs a vs_NoDup) as [i [Hi Hagree]].
  exists (build_model (length vs) i vs). split.
  - apply in_map_iff. exists i. split; [reflexivity | apply in_seq; lia].
  - rewrite build_model_NoDup by assumption.
    apply truth_ext. intros x Hx. apply Hagree, vs_covers, Hx.
Qed.

Lemma forallb_models_iff :
  forallb (fun m => truth (value_in m) formula)
    (map (fun i => build_model (length vs) i vs) (seq 0 (2 ^ length vs)))
  = true
  <-> forall a, truth a formula = true.
Proof.
  rewrite forallb_forall. split.
  - intros H a. destruct (truth_under_some_model a) as [m [Hm <-]].
    now apply H.
  - intros H m _. apply H.
Qed.

Lemma forallb_negb_models_iff :
  forallb (fun m => negb (truth (value_in m) formula))
    (map (fun i => build_model (length vs) i vs) (seq 0 (2 ^ length vs)))
  = true
  <-> forall a, truth a formula = false.
Proof.
  rewrite forallb_forall. split.
  - intros H a. destruct (truth_under_some_model a) as [m [Hm <-]].
    apply negb_true_iff. now apply H.
  - intros H m _. apply negb_true_iff, H.
Qed.

End AllAssignments.

(** What the classifiers decide. *)
Lemma is_tautology_iff (formula : Formula) :
  well_formed formula = true ->
  (is_tautology formula = Ok true <-> forall a, truth a formula = true).
Proof.
  intros Hwf. destruct (all_models_covering formula) as [ms [Hms Hcov]].
  pose proof Hms as Hms'.
  rewrite all_models_Ok in Hms'
    by apply formula_variables_are_variables.
  injection Hms' as Hms'.
  unfold is_tautology. rewrite Hms. cbn [bind].
  rewrite tautology_loop_forallb by assumption. rewrite <- Hms'.
  rewrite <- (forallb_models_iff formula (formula_variables formula)).
  - split; [intros E; now injection E | intros ->; reflexivity].
  - apply NoDup_nodup.
  - intros x Hx. now apply formula_variables_In.
Qed.

Lemma is_contradiction_iff (formula : Formula) :
  well_formed formula = true ->
  (is_contradiction formula = Ok true <-> forall a, truth a formula = false).
Proof.
  intros Hwf. destruct (all_models_covering formula) as [ms [Hms Hcov]].
  pose proof Hms as Hms'.
  rewrite all_models_Ok in Hms'
    by apply formula_variables_are_variables.
  injection Hms' as Hms'.
  unfold is_contradiction. rewrite Hms. cbn [bind].
  rewrite contradiction_loop_forallb by assumption. rewrite <- Hms'.
  rewrite <- (forallb_negb_models_iff formula (formula_variables formula)).
  - split; [intros E; now injection E | intros ->; reflexivity].
  - apply NoDup_nodup.
  - intros x Hx. now apply formula_variables_In.
Qed.

(** Listing the variables of the formula in another order gives the same
    results. *)
Lemma classifiers_any_order (formula : Formula) (vs : list string) :
  well_formed formula = true ->
  NoDup vs ->
  (forall x, In x vs <-> In x (formula_variables formula)) ->
  (ms <- all_models vs ;; tautology_loop formula ms) = is_tautology formula
  /\
  (ms <- all_models vs ;; contradiction_loop formula ms)
  = is_contradiction formula.
Proof.
  intros Hwf Hnd Hsame.
  assert (Hvars : forallb is_variable vs = true).
  { apply forallb_forall. intros x Hx. apply Hsame in Hx.
    pose proof (formula_variables_are_variables formula) as H.
    rewrite forallb_forall in H. now apply H. }
  assert (Hocc : incl (variable_occurrences formula) vs)
    by (intros x Hx; now apply Hsame, formula_variables_In).
  assert (Hocc' : incl (variable_occurrences formula)
                    (formula_variables formula))
    by (intros x Hx; now apply formula_variables_In).
  assert (Hcov : Forall (covering formula)
                   (map (fun i => build_model (length vs) i vs)
                      (seq 0 (2 ^ length vs)))).
  { apply Forall_forall. intros m Hm. apply in_map_iff in Hm as [i [<- _]].
    split; [now apply is_model_build_model|].
    apply issubset_formula_variables. intros x Hx.
    now apply keys_build_model, Hocc. }
  destruct (all_models_covering formula) as [ms [Hms Hcov']].
  pose proof Hms as Hms'.
  rewrite all_models_Ok in Hms' by apply formula_variables_are_variables.
  injection Hms' as Hms'.
  unfold is_tautology, is_contradiction.
  rewrite Hms, (all_models_Ok vs Hvars). cbn [bind].
  rewrite !tautology_loop_forallb, !contradiction_loop_forallb
    by assumption.
  rewrite <- Hms'.
  assert (Ht : forall b b' : bool, (b = true <-> b' = true) -> b = b')
    by (intros [|] [|] [H1 H2]; auto; symmetry; auto).
  split; f_equal; apply Ht.
  - rewrite !forallb_models_iff by (assumption || apply NoDup_nodup).
    tauto.
  - rewrite !forallb_negb_models_iff by (assumption || apply NoDup_nodup).
    tauto.
Qed.

(** * Further properties of the code *)

(** ** [evaluate]: what it raises, and laws of the connectives *)

(** On a well-formed formula [evaluate] returns a boolean when the model is
    valid and has every variable of the formula, and fails an assertion
    otherwise: a missing variable never reaches the dictionary lookup. *)
Theorem evaluate_returns_or_asserts (formula : Formula) (model : Model) :
  well_formed formula = true ->
  (is_model model = true ->
   issubset (formula_variables formula) (keys model) = true ->
   exists b, evaluate formula model = Ok b) /\
  (is_model model = false \/
   issubset (formula_variables formula) (keys model) = false ->
   evaluate formula model = Raise AssertionError).
Proof.
  intros Hwf. split.
  - intros Hm Hs. eexists. now apply evaluate_truth.
  - intros [Hm | Hs];
      [now apply evaluate_not_model | now apply evaluate_not_subset].
Qed.

Lemma evaluate_returns_or_asserts_witness :
  (exists b,
      evaluate (Bin "&" (Atom "p") (Atom "q")) [("p", true); ("q", false)]
      = Ok b) /\
  evaluate (Bin "&" (Atom "p") (Atom "q")) [("p", true)]
  = Raise AssertionError /\
  evaluate (Bin "&" (Atom "p") (Atom "q")) [("p", true); ("Q", false)]
  = Raise AssertionError.
Proof.
  split; [| split].
  - apply (proj1 (evaluate_returns_or_asserts
                    (Bin "&" (Atom "p") (Atom "q"))
                    [("p", true); ("q", false)] eq_refl)); reflexivity.
  - apply (proj2 (evaluate_returns_or_asserts
                    (Bin "&" (Atom "p") (Atom "q"))
                    [("p", true)] eq_refl)). right. reflexivity.
  - apply (proj2 (evaluate_returns_or_asserts
                    (Bin "&" (Atom "p") (Atom "q"))
                    [("p", true); ("Q", false)] eq_refl)). left. reflexivity.
Defined.

(** In a model that covers two well-formed formulas, [evaluate] obeys the
    laws of De Morgan, reads an implication as the disjunction of the negated
    premise and the conclusion, and cancels a double negation. *)
Theorem evaluate_connective_laws (a b : Formula) (model : Model) :
  well_formed a = true ->
  well_formed b = true ->
  is_model model = true ->
  issubset (formula_variables a) (keys model) = true ->
  issubset (formula_variables b) (keys model) = true ->
  evaluate (Un "~" (Bin "&" a b)) model
  = evaluate (Bin "|" (Un "~" a) (Un "~" b)) model /\
  evaluate (Un "~" (Bin "|" a b)) model
  = evaluate (Bin "&" (Un "~" a) (Un "~" b)) model /\
  evaluate (Bin "->" a b) model = evaluate (Bin "|" (Un "~" a) b) model /\
  evaluate (Un "~" (Un "~" a)) model = evaluate a model /\
  exists x, evaluate (Bin "->" a b) model = Ok x.
Proof.
  intros Ha Hb Hm Hsa Hsb.
  assert (Hsub : forall r f g,
             incl (variable_occurrences f) (variable_occurrences a
                                            ++ variable_occurrences b) ->
             incl (variable_occurrences g) (variable_occurrences a
                                            ++ variable_occurrences b) ->
             issubset (formula_variables (Bin r f g)) (keys model) = true).
  { intros r f g Hf Hg. apply issubset_formula_variables. simpl.
    apply issubset_formula_variables in Hsa, Hsb.
    intros x Hx. apply in_app_or in Hx as [Hx | Hx];
      [apply Hf in Hx | apply Hg in Hx];
      apply in_app_or in Hx as [Hx | Hx]; auto. }
  assert (Hl : incl (variable_occurrences a)
                 (variable_occurrences a ++ variable_occurrences b))
    by (intros x Hx; apply in_or_app; now left).
  assert (Hr : incl (variable_occurrences b)
                 (variable_occurrences a ++ variable_occurrences b))
    by (intros x Hx; apply in_or_app; now right).
  rewrite !evaluate_neg.
  rewrite (evaluate_truth (Bin "&" a b)), (evaluate_truth (Bin "|" a b)),
    (evaluate_truth (Bin "->" a b)),
    (evaluate_truth (Bin "|" (Un "~" a) (Un "~" b))),
    (evaluate_truth (Bin "&" (Un "~" a) (Un "~" b))),
    (evaluate_truth (Bin "|" (Un "~" a) b)),
    (evaluate_truth a)
    by (assumption || (simpl; now rewrite ?Ha, ?Hb) || now apply Hsub).
  cbn. unfold binary_value. simpl.
  destruct (truth (value_in model) a), (truth (value_in model) b);
    repeat split; eauto.
Qed.

Lemma evaluate_connective_laws_witness :
  evaluate (Un "~" (Bin "&" (Atom "p") (Atom "F"))) [("p", true)]
  = evaluate (Bin "|" (Un "~" (Atom "p")) (Un "~" (Atom "F"))) [("p", true)]
  /\
  evaluate (Un "~" (Bin "|" (Atom "p") (Atom "F"))) [("p", true)]
  = evaluate (Bin "&" (Un "~" (Atom "p")) (Un "~" (Atom "F"))) [("p", true)]
  /\
  evaluate (Bin "->" (Atom "p") (Atom "F")) [("p", true)]
  = evaluate (Bin "|" (Un "~" (Atom "p")) (Atom "F")) [("p", true)] /\
  evaluate (Un "~" (Un "~" (Atom "p"))) [("p", true)]
  = evaluate (Atom "p") [("p", true)] /\
  exists x, evaluate (Bin "->" (Atom "p") (Atom "F")) [("p", true)] = Ok x.
Proof.
  apply evaluate_connective_laws; reflexivity.
Defined.

(** ** [all_models]: repeated names, and the order of the models *)

Lemma getitem_setitem_same (model : Model) (key : string) (value : bool) :
  getitem (setitem model key value) key = Ok value.
Proof.
  induction model as [|[k v] rest IH]; simpl.
  - now rewrite String.eqb_refl.
  - destruct (String.eqb_spec k key) as [-> | Hne]; simpl.
    + now rewrite String.eqb_refl.
    + apply String.eqb_neq in Hne. now rewrite Hne.
Qed.

Lemma getitem_setitem_other (model : Model) (key key' : string)
  (value : bool) :
  key <> key' ->
  getitem (setitem model key value) key' = getitem model key'.
Proof.
  intros Hne. induction model as [|[k v] rest IH]; simpl.
  - apply String.eqb_neq in Hne. now rewrite Hne.
  - destruct (String.eqb_spec k key) as [-> | Hk]; simpl.
    + apply String.eqb_neq in Hne. now rewrite Hne.
    + now rewrite IH.
Qed.

Lemma getitem_fold_setitem_other (f : nat -> bool)
  (l : list (nat * string)) (x : string) :
  ~ In x (map snd l) ->
  forall acc : Model,
    getitem (fold_left
               (fun model (jv : nat * string) =>
                  let '(j, var) := jv in setitem model var (f j))
               l acc) x
    = getitem acc x.
Proof.
  induction l as [|[j v] l IH]; intros Hx acc; simpl; [reflexivity|].
  rewrite IH by (intros H; apply Hx; now right).
  apply getitem_setitem_other. intros ->. apply Hx. now left.
Qed.

Lemma enumerate_from_app {A : Type} (l1 l2 : list A) :
  forall s,
    combine (seq s (length (l1 ++ l2))) (l1 ++ l2)
    = combine (seq s (length l1)) l1
      ++ combine (seq (s + length l1) (length l2)) l2.
Proof.
  induction l1 as [|a l1 IH]; intros s; simpl.
  - now rewrite Nat.add_0_r.
  - f_equal. rewrite IH. now rewrite Nat.add_succ_r.
Qed.

(** Every model that [all_models] yields is a valid model whose keys are
    the given names, each once, also when the list of names repeats a name;
    and there are [2^n] models for a list of length [n]. *)
Theorem all_models_are_models (vs : list string) :
  forallb is_variable vs = true ->
  exists ms,
    all_models vs = Ok ms /\
    length ms = 2 ^ length vs /\
    forall m,
      In m ms ->
      is_model m = true /\
      NoDup (keys m) /\
      (forall x, In x (keys m) <-> In x vs).
Proof.
  intros Hvars. eexists. split; [now apply all_models_Ok | split].
  - now rewrite length_map, length_seq.
  - intros m Hm. apply in_map_iff in Hm as [i [<- _]].
    split; [now apply is_model_build_model | split].
    + apply NoDup_keys_build_model.
    + apply keys_build_model.
Qed.

Lemma all_models_are_models_witness :
  exists ms,
    all_models ["p"; "q"; "p"] = Ok ms /\
    length ms = 2 ^ length ["p"; "q"; "p"] /\
    forall m,
      In m ms ->
      is_model m = true /\
      NoDup (keys m) /\
      (forall x, In x (keys m) <-> In x ["p"; "q"; "p"]).
Proof.
  apply all_models_are_models. reflexivity.
Defined.

(** When the list of names repeats a name, model [i] gives the name the bit
    of its last position: the later assignment overwrites the earlier. *)
Theorem all_models_last_position (vs : list string) (ms : list Model)
  (i j : nat) (m : Model) (v : string) :
  all_models vs = Ok ms ->
  nth_error ms i = Some m ->
  nth_error vs j = Some v ->
  (forall j', j < j' -> nth_error vs j' <> Some v) ->
  getitem m v = Ok (Nat.testbit i (length vs - j - 1)).
Proof.
  intros Hms Hm Hv Hlast.
  unfold all_models, assert in Hms.
  destruct (forallb is_variable vs); [| discriminate Hms].
  injection Hms as <-. apply nth_error_map_seq in Hm as [_ ->].
  destruct (nth_error_split _ _ Hv) as [l1 [l2 [E Hlen]]].
  assert (Hl2 : ~ In v l2).
  { intros Hin. destruct (In_nth_error _ _ Hin) as [k Hk].
    apply (Hlast (S j + k)); [lia|]. rewrite E.
    rewrite nth_error_app2 by lia.
    replace (S j + k - length l1) with (S k) by lia. exact Hk. }
  assert (Hc : combine (seq 0 (length vs)) vs
               = combine (seq 0 (length l1)) l1
                 ++ (j, v) :: combine (seq (S j) (length l2)) l2).
  { rewrite E, enumerate_from_app. simpl. now rewrite Hlen. }
  unfold build_model, enumerate. rewrite Hc.
  rewrite fold_left_app. cbn [fold_left].
  rewrite (getitem_fold_setitem_other
             (fun j => negb (Nat.land (Nat.shiftr i (length vs - j - 1)) 1
                             =? 0)%nat))
    by now rewrite map_snd_combine_seq.
  now rewrite getitem_setitem_same, bit_of_shift.
Qed.

Lemma all_models_last_position_witness :
  getitem [("p", true); ("q", false)] "p"
  = Ok (Nat.testbit 1 (length ["p"; "q"; "p"] - 2 - 1)).
Proof.
  apply (all_models_last_position ["p"; "q"; "p"]
           [[("p", false); ("q", false)]; [("p", true); ("q", false)];
            [("p", false); ("q", true)]; [("p", true); ("q", true)];
            [("p", false); ("q", false)]; [("p", true); ("q", false)];
            [("p", false); ("q", true)]; [("p", true); ("q", true)]]
           1 2).
  - reflexivity.
  - reflexivity.
  - reflexivity.
  - intros [|[|[|j']]] Hj; simpl; try discriminate; try lia.
    now destruct j'.
Defined.

Lemma bits_S (n i : nat) : bits (S n) i = Nat.testbit i n :: bits n i.
Proof.
  unfold bits. cbn [seq map]. f_equal; [f_equal; lia|].
  rewrite <- seq_shift, map_map. apply map_ext. intros j. f_equal.
Qed.

Lemma bits_above (n i : nat) : bits n (2 ^ n + i) = bits n i.
Proof.
  unfold bits. apply map_ext_in. intros j Hj. apply in_seq in Hj.
  rewrite <- (Nat.mod_pow2_bits_low (2 ^ n + i) n) by lia.
  rewrite <- (Nat.mod_pow2_bits_low i n (n - j - 1)) by lia.
  f_equal. replace (2 ^ n + i) with (i + 1 * 2 ^ n) by lia.
  apply Nat.Div0.mod_add.
Qed.

Lemma testbit_top (n i : nat) :
  i < 2 ^ n -> Nat.testbit (2 ^ n + i) n = true.
Proof.
  intros Hi. apply Nat.testbit_true.
  replace (2 ^ n + i) with (1 * 2 ^ n + i) by lia.
  rewrite Nat.div_add_l by (apply Nat.pow_nonzero; discriminate).
  now rewrite (Nat.div_small i) by assumption.
Qed.

Lemma seq_add_map (a len : nat) :
  forall s, seq (a + s) len = map (Nat.add a) (seq s len).
Proof.
  induction len as [|len IH]; intros s; simpl; [reflexivity|].
  f_equal. rewrite <- IH. f_equal. lia.
Qed.

Lemma build_model_cons (i : nat) (v : string) (vs : list string) :
  NoDup (v :: vs) ->
  build_model (S (length vs)) i (v :: vs)
  = (v, Nat.testbit i (length vs)) :: combine vs (bits (length vs) i).
Proof.
  intros Hnd. change (S (length vs)) with (length (v :: vs)).
  rewrite build_model_NoDup by assumption. cbn [length].
  now rewrite bits_S.
Qed.

(** The order of the models is lexicographic, false before true: the models
    over a name followed by further names are the models over the further
    names with the first name false, then the same models with it true. *)
Theorem all_models_cons (v : string) (vs : list string) :
  forallb is_variable (v :: vs) = true ->
  NoDup (v :: vs) ->
  all_models (v :: vs)
  = (ms <- all_models vs ;;
     Ok (map (cons (v, false)) ms ++ map (cons (v, true)) ms)).
Proof.
  intros Hvars Hnd. pose proof Hvars as Hvs. simpl in Hvs.
  apply andb_true_iff in Hvs as [_ Hvs].
  assert (Hnd' : NoDup vs) by now inversion Hnd.
  rewrite (all_models_Ok _ Hvars), (all_models_Ok _ Hvs). cbn [bind].
  f_equal. cbn [length]. rewrite Nat.pow_succ_r'.
  replace (2 * 2 ^ length vs) with (2 ^ length vs + 2 ^ length vs) by lia.
  rewrite seq_app, map_app, !map_map. f_equal.
  - apply map_ext_in. intros i Hi. apply in_seq in Hi.
    rewrite (build_model_NoDup i vs Hnd'), build_model_cons by assumption.
    now rewrite (bits_high (length vs) i (length vs)) by lia.
  - replace (0 + 2 ^ length vs) with (2 ^ length vs + 0) by lia.
    rewrite seq_add_map, map_map.
    apply map_ext_in. intros i Hi. apply in_seq in Hi.
    rewrite (build_model_NoDup i vs Hnd'), build_model_cons by assumption.
    now rewrite bits_above, testbit_top by lia.
Qed.

Lemma all_models_cons_witness :
  all_models ["r"; "p"; "q"]
  = (ms <- all_models ["p"; "q"] ;;
     Ok (map (cons ("r", false)) ms ++ map (cons ("r", true)) ms)).
Proof.
  apply all_models_cons.
  - reflexivity.
  - repeat constructor; simpl; intuition discriminate.
Defined.

(** ** The classifiers: what they decide and how they relate *)

Lemma truth_of_covering_model (formula : Formula) (a : string -> bool) :
  well_formed formula = true ->
  exists m,
    is_model m = true /\
    issubset (formula_variables formula) (keys m) = true /\
    evaluate formula m = Ok (truth a formula).
Proof.
  intros Hwf.
  destruct (truth_under_some_model formula (formula_variables formula)
              (NoDup_nodup _ _)
              (fun x Hx => proj2 (formula_variables_In x formula) Hx) a)
    as [m [Hm <-]].
  apply in_map_iff in Hm as [i [<- _]].
  assert (Hmod : is_model (build_model (length (formula_variables formula)) i
                             (formula_variables formula)) = true)
    by apply is_model_build_model, formula_variables_are_variables.
  eexists. split; [exact Hmod | split; [apply build_model_covers|]].
  apply evaluate_truth; [exact Hwf | exact Hmod | apply build_model_covers].
Qed.

(** [is_tautology] returns a boolean for every well-formed formula, and it
    returns true exactly when [evaluate] returns true in every valid model
    that has the variables of the formula, not only in the models it
    enumerates. *)
Theorem is_tautology_every_model (formula : Formula) :
  well_formed formula = true ->
  (exists t, is_tautology formula = Ok t) /\
  (is_tautology formula = Ok true <->
   forall m,
     is_model m = true ->
     issubset (formula_variables formula) (keys m) = true ->
     evaluate formula m = Ok true).
Proof.
  intros Hwf. split; [now apply is_tautology_total|].
  rewrite is_tautology_iff by assumption. split.
  - intros H m Hm Hs. rewrite evaluate_truth by assumption. now rewrite H.
  - intros H a.
    destruct (truth_of_covering_model formula a Hwf) as [m [Hm [Hs He]]].
    rewrite (H m Hm Hs) in He. now injection He.
Qed.

Lemma is_tautology_every_model_witness :
  (exists t, is_tautology (Bin "|" (Atom "p") (Un "~" (Atom "p"))) = Ok t) /\
  (is_tautology (Bin "|" (Atom "p") (Un "~" (Atom "p"))) = Ok true <->
   forall m,
     is_model m = true ->
     issubset (formula_variables (Bin "|" (Atom "p") (Un "~" (Atom "p"))))
       (keys m) = true ->
     evaluate (Bin "|" (Atom "p") (Un "~" (Atom "p"))) m = Ok true).
Proof.
  apply is_tautology_every_model. reflexivity.
Defined.

(** [is_contradiction] returns a boolean for every well-formed formula, and
    it returns true exactly when [evaluate] returns false in every valid
    model that has the variables of the formula. *)
Theorem is_contradiction_every_model (formula : Formula) :
  well_formed formula = true ->
  (exists c, is_contradiction formula = Ok c) /\
  (is_contradiction formula = Ok true <->
   forall m,
     is_model m = true ->
     issubset (formula_variables formula) (keys m) = true ->
     evaluate formula m = Ok false).
Proof.
  intros Hwf. split; [now apply is_contradiction_total|].
  rewrite is_contradiction_iff by assumption. split.
  - intros H m Hm Hs. rewrite evaluate_truth by assumption. now rewrite H.
  - intros H a.
    destruct (truth_of_covering_model formula a Hwf) as [m [Hm [Hs He]]].
    rewrite (H m Hm Hs) in He. now injection He.
Qed.

Lemma is_contradiction_every_model_witness :
  (exists c,
      is_contradiction (Bin "&" (Atom "p") (Un "~" (Atom "p"))) = Ok c) /\
  (is_contradiction (Bin "&" (Atom "p") (Un "~" (Atom "p"))) = Ok true <->
   forall m,
     is_model m = true ->
     issubset (formula_variables (Bin "&" (Atom "p") (Un "~" (Atom "p"))))
       (keys m) = true ->
     evaluate (Bin "&" (Atom "p") (Un "~" (Atom "p"))) m = Ok false).
Proof.
  apply is_contradiction_every_model. reflexivity.
Defined.

(** No well-formed formula is both a tautology and a contradiction:
    [is_tautology] and [is_contradiction] return booleans that are not both
    true. *)
Theorem tautology_excludes_contradiction (formula : Formula) :
  well_formed formula = true ->
  exists t c,
    is_tautology formula = Ok t /\
    is_contradiction formula = Ok c /\
    t && c = false.
Proof.
  intros Hwf. destruct (all_models_covering formula) as [ms [Hms Hcov]].
  assert (Hne : ms <> []).
  { rewrite all_models_Ok in Hms by apply formula_variables_are_variables.
    injection Hms as <-. intros E. apply (f_equal (@length Model)) in E.
    rewrite length_map, length_seq in E. simpl in E.
    pose proof (Nat.pow_nonzero 2 (length (formula_variables formula))).
    lia. }
  unfold is_tautology, is_contradiction. rewrite Hms. cbn [bind].
  rewrite tautology_loop_forallb, contradiction_loop_forallb by assumption.
  do 2 eexists. repeat split.
  destruct ms as [|m ms]; [contradiction|]. simpl.
  destruct (truth (value_in m) formula); simpl;
    [apply andb_false_r | reflexivity].
Qed.

Lemma tautology_excludes_contradiction_witness :
  exists t c,
    is_tautology (Bin "->" (Atom "p") (Atom "q")) = Ok t /\
    is_contradiction (Bin "->" (Atom "p") (Atom "q")) = Ok c /\
    t && c = false.
Proof.
  apply tautology_excludes_contradiction. reflexivity.
Defined.

(** The classifiers read the values of the formula in the models: with the
    booleans that [evaluate] returns for a well-formed formula in the
    models of [all_models] over its variables, one per model,
    [is_tautology] is whether all are true and [is_contradiction] whether
    none is. *)
Theorem classifiers_read_evaluate (formula : Formula) :
  well_formed formula = true ->
  exists ms tv,
    all_models (formula_variables formula) = Ok ms /\
    map (evaluate formula) ms = map Ok tv /\
    length tv = 2 ^ length (formula_variables formula) /\
    is_tautology formula = Ok (forallb (fun b => b) tv) /\
    is_contradiction formula = Ok (forallb negb tv).
Proof.
  intros Hwf. destruct (all_models_covering formula) as [ms [Hms Hcov]].
  exists ms, (map (fun m => truth (value_in m) formula) ms).
  split; [exact Hms | split; [| split]].
  - rewrite map_evaluate_truth by assumption. now rewrite map_map.
  - rewrite all_models_Ok in Hms by apply formula_variables_are_variables.
    injection Hms as <-. now rewrite !length_map, length_seq.
  - unfold is_tautology, is_contradiction. rewrite Hms. cbn [bind].
    rewrite tautology_loop_forallb, contradiction_loop_forallb
      by assumption.
    rewrite (forallb_map_in (fun b => b) _
               (fun m => truth (value_in m) formula)) by reflexivity.
    now rewrite (forallb_map_in negb _
                   (fun m => negb (truth (value_in m) formula)))
      by reflexivity.
Qed.

Lemma classifiers_read_evaluate_witness :
  exists ms tv,
    all_models (formula_variables (Bin "->" (Atom "p") (Atom "q"))) = Ok ms /\
    map (evaluate (Bin "->" (Atom "p") (Atom "q"))) ms = map Ok tv /\
    length tv = 2 ^ length (formula_variables (Bin "->" (Atom "p") (Atom "q")))
    /\
    is_tautology (Bin "->" (Atom "p") (Atom "q"))
    = Ok (forallb (fun b => b) tv) /\
    is_contradiction (Bin "->" (Atom "p") (Atom "q")) = Ok (forallb negb tv).
Proof.
  apply classifiers_read_evaluate. reflexivity.
Defined.

Lemma classifiers_any_order_witness :
  (ms <- all_models ["q"; "p"] ;;
   tautology_loop (Bin "->" (Atom "p") (Atom "q")) ms)
  = is_tautology (Bin "->" (Atom "p") (Atom "q")) /\
  (ms <- all_models ["q"; "p"] ;;
   contradiction_loop (Bin "->" (Atom "p") (Atom "q")) ms)
  = is_contradiction (Bin "->" (Atom "p") (Atom "q")).
Proof.
  apply classifiers_any_order.
  - reflexivity.
  - repeat constructor; simpl; intuition discriminate.
  - intros x. simpl. tauto.
Defined.

(** ** The clauses of the synthesizers *)

Lemma occurrences_fold_iff (op : string) (fs : list Formula) (x : string) :
  forall f,
    In x (variable_occurrences (fold_left (Bin op) fs f))
    <-> In x (variable_occurrences f)
        \/ exists g, In g fs /\ In x (variable_occurrences g).
Proof.
  induction fs as [|g fs IH]; intros f; simpl.
  - split; [auto | intros [H | [g [[] _]]]; exact H].
  - rewrite IH. simpl. rewrite in_app_iff. split.
    + intros [[H | H] | [g' [Hg' H]]]; eauto.
    + intros [H | [g' [[<- | Hg'] H]]]; eauto.
Qed.

Lemma occurrences_clause_keys (op : string)
  (lit : string * bool -> Formula) (otherwise : Formula) (m : Model) :
  m <> [] ->
  (forall kb, In kb m -> variable_occurrences (lit kb) = [fst kb]) ->
  forall x,
    In x (variable_occurrences (joined op (map lit m) otherwise))
    <-> In x (keys m).
Proof.
  intros Hne Hlit x. destruct m as [|kb rest]; [contradiction|].
  unfold joined. cbn [map join]. rewrite occurrences_fold_iff.
  rewrite Hlit by now left. simpl. split.
  - intros [[<- | []] | [g [Hg Hx]]]; [now left|].
    apply in_map_iff in Hg as [kb' [<- Hin]].
    rewrite Hlit in Hx by now right. destruct Hx as [<- | []].
    right. now apply in_map.
  - intros [<- | Hin]; [now left; left|].
    apply in_map_iff in Hin as [kb' [<- Hin]].
    right. exists (lit kb'). split; [now apply in_map|].
    rewrite Hlit by now right. now left.
Qed.

Lemma occurrences_dnf_literal (m : Model) (kb : string * bool) :
  is_model m = true -> In kb m ->
  variable_occurrences (dnf_literal kb) = [fst kb].
Proof.
  intros Hm Hin. pose proof (is_model_In _ _ Hm Hin) as Hk.
  destruct kb as [k [|]]; unfold dnf_literal; simpl in *; now rewrite Hk.
Qed.

Lemma occurrences_cnf_literal (m : Model) (kb : string * bool) :
  is_model m = true -> In kb m ->
  variable_occurrences (cnf_literal kb) = [fst kb].
Proof.
  intros Hm Hin. pose proof (is_model_In _ _ Hm Hin) as Hk.
  destruct kb as [k [|]]; unfold cnf_literal; simpl in *; now rewrite Hk.
Qed.

(** Whether [m'] gives every key of [m] the value that [m] gives it. *)
Lemma agrees_value_in (m m' : Model) :
  incl (keys m) (keys m') ->
  agrees (value_in m') m = true
  <-> forall k b, In (k, b) m -> getitem m' k = Ok b.
Proof.
  intros Hincl. unfold agrees. rewrite forallb_forall. split.
  - intros H k b Hin. specialize (H _ Hin). simpl in H.
    apply eqb_prop in H. unfold value_in in H.
    destruct (getitem_In m' k) as [x Hx].
    { apply Hincl. change k with (fst (k, b)). now apply in_map. }
    rewrite Hx in *. now subst.
  - intros H [k b] Hin. simpl. unfold value_in.
    rewrite (H k b Hin). apply eqb_reflx.
Qed.

(** [_synthesize_for_model] does what its docstring says: for a valid model
    with at least one key it returns a well-formed formula over exactly the
    keys of the model, which evaluates, in every valid model that has these
    keys, to true if that model gives each key the value of the given model
    and to false otherwise; so it is true in the given model itself. *)
Theorem synthesize_for_model_true_only_in_model (m : Model) :
  is_model m = true ->
  NoDup (keys m) ->
  m <> [] ->
  exists f,
    _synthesize_for_model m = Ok f /\
    well_formed f = true /\
    (forall x, In x (formula_variables f) <-> In x (keys m)) /\
    evaluate f m = Ok true /\
    forall m',
      is_model m' = true ->
      issubset (keys m) (keys m') = true ->
      exists b,
        evaluate f m' = Ok b /\
        (b = true <-> forall k v, In (k, v) m -> getitem m' k = Ok v).
Proof.
  intros Hm Hnd Hne. exists (dnf_clause m).
  assert (Hvars : forall x,
             In x (formula_variables (dnf_clause m)) <-> In x (keys m)).
  { intros x. rewrite formula_variables_In.
    apply occurrences_clause_keys; [exact Hne|].
    intros kb Hin. now apply (occurrences_dnf_literal m). }
  assert (Hall : forall m',
             is_model m' = true ->
             issubset (keys m) (keys m') = true ->
             evaluate (dnf_clause m) m' = Ok (agrees (value_in m') m)).
  { intros m' Hm' Hsub. rewrite evaluate_truth.
    - now rewrite truth_dnf_clause.
    - now apply well_formed_dnf_clause.
    - exact Hm'.
    - apply issubset_incl. intros x Hx. apply Hvars in Hx.
      apply issubset_incl in Hsub. now apply Hsub. }
  split; [now apply synthesize_for_model_clause | split; [| split; [| split]]].
  - now apply well_formed_dnf_clause.
  - exact Hvars.
  - rewrite Hall; [| exact Hm | apply issubset_incl, incl_refl].
    f_equal. apply agrees_value_in; [apply incl_refl|].
    intros k v Hin. now apply getitem_NoDup_In.
  - intros m' Hm' Hsub. eexists. split; [now apply Hall|].
    apply agrees_value_in. now apply issubset_incl.
Qed.

Lemma synthesize_for_model_true_only_in_model_witness :
  exists f,
    _synthesize_for_model [("p", true); ("q", false)] = Ok f /\
    well_formed f = true /\
    (forall x,
        In x (formula_variables f)
        <-> In x (keys [("p", true); ("q", false)])) /\
    evaluate f [("p", true); ("q", false)] = Ok true /\
    forall m',
      is_model m' = true ->
      issubset (keys [("p", true); ("q", false)]) (keys m') = true ->
      exists b,
        evaluate f m' = Ok b /\
        (b = true <->
         forall k v,
           In (k, v) [("p", true); ("q", false)] -> getitem m' k = Ok v).
Proof.
  apply synthesize_for_model_true_only_in_model.
  - reflexivity.
  - repeat constructor; simpl; intuition discriminate.
  - discriminate.
Defined.

(** [_synthesize_for_all_except_model] does what its docstring says: for a
    valid model with at least one key it returns a well-formed formula over
    exactly the keys of the model, which evaluates, in every valid model
    that has these keys, to false if that model gives each key the value of
    the given model and to true otherwise; so it is false in the given model
    itself. *)
Theorem synthesize_for_all_except_model_false_only_in_model (m : Model) :
  is_model m = true ->
  NoDup (keys m) ->
  m <> [] ->
  exists f,
    _synthesize_for_all_except_model m = Ok f /\
    well_formed f = true /\
    (forall x, In x (formula_variables f) <-> In x (keys m)) /\
    evaluate f m = Ok false /\
    forall m',
      is_model m' = true ->
      issubset (keys m) (keys m') = true ->
      exists b,
        evaluate f m' = Ok b /\
        (b = false <-> forall k v, In (k, v) m -> getitem m' k = Ok v).
Proof.
  intros Hm Hnd Hne. exists (cnf_clause m).
  assert (Hvars : forall x,
             In x (formula_variables (cnf_clause m)) <-> In x (keys m)).
  { intros x. rewrite formula_variables_In.
    apply occurrences_clause_keys; [exact Hne|].
    intros kb Hin. now apply (occurrences_cnf_literal m). }
  assert (Hall : forall m',
             is_model m' = true ->
             issubset (keys m) (keys m') = true ->
             evaluate (cnf_clause m) m' = Ok (negb (agrees (value_in m') m))).
  { intros m' Hm' Hsub. rewrite evaluate_truth.
    - now rewrite truth_cnf_clause.
    - now apply well_formed_cnf_clause.
    - exact Hm'.
    - apply issubset_incl. intros x Hx. apply Hvars in Hx.
      apply issubset_incl in Hsub. now apply Hsub. }
  split; [now apply synthesize_for_all_except_model_clause
         | split; [| split; [| split]]].
  - now apply well_formed_cnf_clause.
  - exact Hvars.
  - rewrite Hall; [| exact Hm | apply issubset_incl, incl_refl].
    f_equal. apply negb_false_iff. apply agrees_value_in; [apply incl_refl|].
    intros k v Hin. now apply getitem_NoDup_In.
  - intros m' Hm' Hsub. eexists. split; [now apply Hall|].
    rewrite negb_false_iff. apply agrees_value_in. now apply issubset_incl.
Qed.

Lemma synthesize_for_all_except_model_false_only_in_model_witness :
  exists f,
    _synthesize_for_all_except_model [("p", true); ("q", false)] = Ok f /\
    well_formed f = true /\
    (forall x,
        In x (formula_variables f)
        <-> In x (keys [("p", true); ("q", false)])) /\
    evaluate f [("p", true); ("q", false)] = Ok false /\
    forall m',
      is_model m' = true ->
      issubset (keys [("p", true); ("q", false)]) (keys m') = true ->
      exists b,
        evaluate f m' = Ok b /\
        (b = false <->
         forall k v,
           In (k, v) [("p", true); ("q", false)] -> getitem m' k = Ok v).
Proof.
  apply synthesize_for_all_except_model_false_only_in_model.
  - reflexivity.
  - repeat constructor; simpl; intuition discriminate.
  - discriminate.
Defined.

(** ** The normal forms of the synthesized formulas *)

Lemma is_joined_of_inner (op : string) (inner : Formula -> bool)
  (f : Formula) :
  inner f = true -> is_joined_of op inner f = true.
Proof. intros H. destruct f; simpl; now rewrite H. Qed.

Lemma is_joined_of_fold (op : string) (inner : Formula -> bool)
  (fs : list Formula) :
  (forall g, In g fs -> inner g = true) ->
  forall f,
    is_joined_of op inner f = true ->
    is_joined_of op inner (fold_left (Bin op) fs f) = true.
Proof.
  induction fs as [|g fs IH]; intros Hfs f Hf; simpl; [exact Hf|].
  apply IH; [intros; apply Hfs; now right|].
  simpl. rewrite String.eqb_refl, Hf, (Hfs g) by now left.
  apply orb_true_r.
Qed.

Lemma is_joined_of_joined (op : string) (inner : Formula -> bool)
  (fs : list Formula) (otherwise : Formula) :
  (forall g, In g fs -> inner g = true) ->
  is_joined_of op inner otherwise = true ->
  is_joined_of op inner (joined op fs otherwise) = true.
Proof.
  intros Hfs Ho. unfold joined. destruct fs as [|f fs]; cbn [join];
    [exact Ho|].
  apply is_joined_of_fold; [intros; apply Hfs; now right|].
  apply is_joined_of_inner, Hfs. now left.
Qed.

Lemma dnf_clause_is_clause (m : Model) :
  is_model m = true -> m <> [] ->
  is_joined_of "&" is_literal (dnf_clause m) = true.
Proof.
  intros Hm Hne. destruct m as [|kb rest]; [contradiction|].
  unfold dnf_clause, joined. cbn [map join].
  assert (Hlit : forall kb', In kb' (kb :: rest) ->
                             is_literal (dnf_literal kb') = true).
  { intros [k b] Hin. pose proof (is_model_In _ _ Hm Hin) as Hk.
    simpl in Hk. unfold dnf_literal. destruct b; simpl; now rewrite Hk. }
  apply is_joined_of_fold.
  - intros g Hg. apply in_map_iff in Hg as [kb' [<- Hin]].
    apply Hlit. now right.
  - apply is_joined_of_inner, Hlit. now left.
Qed.

Lemma cnf_clause_is_clause (m : Model) :
  is_model m = true -> m <> [] ->
  is_joined_of "|" is_literal (cnf_clause m) = true.
Proof.
  intros Hm Hne. destruct m as [|kb rest]; [contradiction|].
  unfold cnf_clause, joined. cbn [map join].
  assert (Hlit : forall kb', In kb' (kb :: rest) ->
                             is_literal (cnf_literal kb') = true).
  { intros [k b] Hin. pose proof (is_model_In _ _ Hm Hin) as Hk.
    simpl in Hk. unfold cnf_literal. destruct b; simpl; now rewrite Hk. }
  apply is_joined_of_fold.
  - intros g Hg. apply in_map_iff in Hg as [kb' [<- Hin]].
    apply Hlit. now right.
  - apply is_joined_of_inner, Hlit. now left.
Qed.

Lemma occurrences_joined_iff (op : string) (fs : list Formula)
  (otherwise : Formula) (names : list string) :
  fs <> [] ->
  (forall g, In g fs ->
             forall x, In x (variable_occurrences g) <-> In x names) ->
  forall x,
    In x (variable_occurrences (joined op fs otherwise)) <-> In x names.
Proof.
  intros Hne Hfs x. destruct fs as [|f fs]; [contradiction|].
  unfold joined. cbn [join]. rewrite occurrences_fold_iff. split.
  - intros [H | [g [Hg H]]]; [apply (Hfs f) | apply (Hfs g)];
      simpl; auto.
  - intros H. left. apply (Hfs f); [now left | exact H].
Qed.

Lemma occurrences_clause_of_model (op : string)
  (lit : string * bool -> Formula) (otherwise : Formula)
  (n i : nat) (vs : list string) :
  vs <> [] ->
  (forall kb, In kb (build_model n i vs) ->
              variable_occurrences (lit kb) = [fst kb]) ->
  forall x,
    In x (variable_occurrences
            (joined op (map lit (build_model n i vs)) otherwise))
    <-> In x vs.
Proof.
  intros Hne Hlit x.
  rewrite occurrences_clause_keys;
    [apply keys_build_model | now apply build_model_not_empty | exact Hlit].
Qed.

Lemma synthesized_dnf_shape (vs : list string) (l : list nat) :
  vs <> [] ->
  forallb is_variable vs = true ->
  well_formed
    (joined "|" (map (fun i => dnf_clause (build_model (length vs) i vs)) l)
       (Bin "&" (Atom "p") (Un "~" (Atom "p")))) = true /\
  is_dnf
    (joined "|" (map (fun i => dnf_clause (build_model (length vs) i vs)) l)
       (Bin "&" (Atom "p") (Un "~" (Atom "p")))) = true.
Proof.
  intros Hne Hvars. split.
  - apply well_formed_joined; try reflexivity.
    intros g Hg. apply in_map_iff in Hg as [i [<- _]].
    now apply well_formed_dnf_clause, is_model_build_model.
  - apply is_joined_of_joined; [| reflexivity].
    intros g Hg. apply in_map_iff in Hg as [i [<- _]].
    apply dnf_clause_is_clause;
      [now apply is_model_build_model | now apply build_model_not_empty].
Qed.

Lemma synthesized_cnf_shape (vs : list string) (l : list nat) :
  vs <> [] ->
  forallb is_variable vs = true ->
  well_formed
    (joined "&" (map (fun i => cnf_clause (build_model (length vs) i vs)) l)
       (Bin "|" (Atom "p") (Un "~" (Atom "p")))) = true /\
  is_cnf
    (joined "&" (map (fun i => cnf_clause (build_model (length vs) i vs)) l)
       (Bin "|" (Atom "p") (Un "~" (Atom "p")))) = true.
Proof.
  intros Hne Hvars. split.
  - apply well_formed_joined; try reflexivity.
    intros g Hg. apply in_map_iff in Hg as [i [<- _]].
    now apply well_formed_cnf_clause, is_model_build_model.
  - apply is_joined_of_joined; [| reflexivity].
    intros g Hg. apply in_map_iff in Hg as [i [<- _]].
    apply cnf_clause_is_clause;
      [now apply is_model_build_model | now apply build_model_not_empty].
Qed.

(** [synthesize] returns a formula in disjunctive normal form, as its
    docstring says: a well-formed disjunction, joined from the left, of
    conjunctions, joined from the left, of variables and negated variables;
    when some value is true its variables are exactly the given names. *)
Theorem synthesize_is_dnf (vs : list string) (values : list bool) :
  vs <> [] ->
  forallb is_variable vs = true ->
  length values = 2 ^ length vs ->
  exists f,
    synthesize vs values = Ok f /\
    well_formed f = true /\
    is_dnf f = true /\
    (In true values -> forall x, In x (formula_variables f) <-> In x vs).
Proof.
  intros Hne Hvars Hlen. eexists. split;
    [apply synthesize_Ok; (assumption || lia) | split; [| split]].
  - now apply synthesized_dnf_shape.
  - now apply synthesized_dnf_shape.
  - intros Htrue x. rewrite formula_variables_In.
    apply occurrences_joined_iff.
    + apply filter_true_not_nil in Htrue. rewrite Hlen in Htrue.
      intros E. apply map_eq_nil in E. contradiction.
    + intros g Hg. apply in_map_iff in Hg as [i [<- _]].
      apply occurrences_clause_of_model; [exact Hne|].
      intros kb Hin. apply (occurrences_dnf_literal _ _
                              (is_model_build_model _ i vs Hvars) Hin).
Qed.

Lemma synthesize_is_dnf_witness :
  exists f,
    synthesize ["p"; "q"] [false; true; true; false] = Ok f /\
    well_formed f = true /\
    is_dnf f = true /\
    (In true [false; true; true; false] ->
     forall x, In x (formula_variables f) <-> In x ["p"; "q"]).
Proof.
  apply synthesize_is_dnf; [discriminate | reflexivity | reflexivity].
Defined.

(** [synthesize_cnf] returns a formula in conjunctive normal form, as its
    docstring says: a well-formed conjunction, joined from the left, of
    disjunctions, joined from the left, of variables and negated variables;
    when some value is false its variables are exactly the given names. *)
Theorem synthesize_cnf_is_cnf (vs : list string) (values : list bool) :
  vs <> [] ->
  forallb is_variable vs = true ->
  length values = 2 ^ length vs ->
  exists f,
    synthesize_cnf vs values = Ok f /\
    well_formed f = true /\
    is_cnf f = true /\
    (In false values -> forall x, In x (formula_variables f) <-> In x vs).
Proof.
  intros Hne Hvars Hlen. eexists. split;
    [apply synthesize_cnf_Ok; (assumption || lia) | split; [| split]].
  - now apply synthesized_cnf_shape.
  - now apply synthesized_cnf_shape.
  - intros Hfalse x. rewrite formula_variables_In.
    apply occurrences_joined_iff.
    + apply filter_false_not_nil in Hfalse. rewrite Hlen in Hfalse.
      intros E. apply map_eq_nil in E. contradiction.
    + intros g Hg. apply in_map_iff in Hg as [i [<- _]].
      apply occurrences_clause_of_model; [exact Hne|].
      intros kb Hin. apply (occurrences_cnf_literal _ _
                              (is_model_build_model _ i vs Hvars) Hin).
Qed.

Lemma synthesize_cnf_is_cnf_witness :
  exists f,
    synthesize_cnf ["p"; "q"] [false; true; true; false] = Ok f /\
    well_formed f = true /\
    is_cnf f = true /\
    (In false [false; true; true; false] ->
     forall x, In x (formula_variables f) <-> In x ["p"; "q"]).
Proof.
  apply synthesize_cnf_is_cnf; [discriminate | reflexivity | reflexivity].
Defined.

(** ** Synthesis composed with evaluation and classification *)

Lemma agrees_ext (a a' : string -> bool) (m : Model) :
  (forall k, In k (keys m) -> a k = a' k) -> agrees a m = agrees a' m.
Proof.
  intros H. unfold agrees. induction m as [|[k b] m IH]; [reflexivity|].
  simpl. rewrite (H k) by now left. f_equal. apply IH.
  intros k' Hk'. apply H. now right.
Qed.

Lemma agrees_assignment_of (vs : list string) (a : string -> bool)
  (i k : nat) :
  NoDup vs ->
  i < 2 ^ length vs ->
  k < 2 ^ length vs ->
  (forall v, In v vs -> value_in (combine vs (bits (length vs) k)) v = a v) ->
  agrees a (build_model (length vs) i vs) = (i =? k)%nat.
Proof.
  intros Hnd Hi Hk Ha. rewrite build_model_NoDup by assumption.
  rewrite <- (agrees_assignment vs i k) by assumption.
  apply agrees_ext. intros v Hv.
  rewrite keys_combine in Hv by apply length_bits.
  symmetry. now apply Ha.
Qed.

(** Under an assignment that model [k] of the enumeration represents, the
    formula of [synthesize] has the value at index [k], and so has the
    formula of [synthesize_cnf]. *)
Lemma truth_synthesized_dnf (vs : list string) (values : list bool)
  (a : string -> bool) (k : nat) :
  vs <> [] ->
  forallb is_variable vs = true ->
  NoDup vs ->
  k < 2 ^ length vs ->
  (forall v, In v vs -> value_in (combine vs (bits (length vs) k)) v = a v) ->
  truth a
    (joined "|"
       (map (fun i => dnf_clause (build_model (length vs) i vs))
          (filter (fun i => nth i values false) (seq 0 (2 ^ length vs))))
       (Bin "&" (Atom "p") (Un "~" (Atom "p"))))
  = nth k values false.
Proof.
  intros Hne Hvars Hnd Hk Ha. rewrite truth_joined_or.
  rewrite (existsb_map_in _ _ (fun i => (i =? k)%nat)).
  - apply existsb_eqb_filter, in_seq. lia.
  - intros i Hi. apply filter_In in Hi as [Hi _]. apply in_seq in Hi.
    rewrite truth_dnf_clause
      by (now apply is_model_build_model || now apply build_model_not_empty).
    apply agrees_assignment_of; (assumption || lia).
Qed.

Lemma truth_synthesized_cnf (vs : list string) (values : list bool)
  (a : string -> bool) (k : nat) :
  vs <> [] ->
  forallb is_variable vs = true ->
  NoDup vs ->
  k < 2 ^ length vs ->
  (forall v, In v vs -> value_in (combine vs (bits (length vs) k)) v = a v) ->
  truth a
    (joined "&"
       (map (fun i => cnf_clause (build_model (length vs) i vs))
          (filter (fun i => negb (nth i values false))
             (seq 0 (2 ^ length vs))))
       (Bin "|" (Atom "p") (Un "~" (Atom "p"))))
  = nth k values false.
Proof.
  intros Hne Hvars Hnd Hk Ha. rewrite truth_joined_and.
  rewrite (forallb_map_in _ _ (fun i => negb (i =? k)%nat)).
  - rewrite forallb_negb_existsb, existsb_eqb_filter by (apply in_seq; lia).
    apply negb_involutive.
  - intros i Hi. apply filter_In in Hi as [Hi _]. apply in_seq in Hi.
    rewrite truth_cnf_clause
      by (now apply is_model_build_model || now apply build_model_not_empty).
    f_equal. apply agrees_assignment_of; (assumption || lia).
Qed.

Lemma bool_eq_iff (b b' : bool) : (b = true <-> b' = true) -> b = b'.
Proof. destruct b, b'; intros [H1 H2]; auto; symmetry; auto. Qed.

(** The classifiers on a well-formed formula whose truth value under every
    assignment is the entry of a table at the index of the model that
    represents the assignment. *)
Lemma classifiers_of_table (f : Formula) (vs : list string)
  (values : list bool) :
  well_formed f = true ->
  NoDup vs ->
  length values = 2 ^ length vs ->
  (forall a k,
      k < 2 ^ length vs ->
      (forall v, In v vs ->
                 value_in (combine vs (bits (length vs) k)) v = a v) ->
      truth a f = nth k values false) ->
  is_tautology f = Ok (forallb (fun b => b) values) /\
  is_contradiction f = Ok (forallb negb values).
Proof.
  intros Hwf Hnd Hlen Htable.
  assert (Hat : forall k, k < length values ->
                          exists a, truth a f = nth k values false).
  { intros k Hk. exists (value_in (combine vs (bits (length vs) k))).
    apply Htable; [lia | reflexivity]. }
  assert (Hin : forall a, In (truth a f) values).
  { intros a. destruct (model_of_assignment vs a Hnd) as [k [Hk Ha]].
    rewrite (Htable a k Hk Ha). apply nth_In. lia. }
  destruct (is_tautology_total f Hwf) as [t Ht].
  destruct (is_contradiction_total f Hwf) as [c Hc].
  pose proof (is_tautology_iff f Hwf) as Htiff.
  pose proof (is_contradiction_iff f Hwf) as Hciff.
  rewrite Ht, Hc in *.
  assert (Et : t = forallb (fun b => b) values).
  { apply bool_eq_iff. rewrite forallb_forall. split.
    - intros -> b Hb. destruct (In_nth _ _ false Hb) as [k [Hk <-]].
      destruct (Hat k Hk) as [a <-]. now apply Htiff.
    - intros H. assert (E : Ok t = Ok true); [| now injection E].
      apply Htiff. intros a. apply H, Hin. }
  assert (Ec : c = forallb negb values).
  { apply bool_eq_iff. rewrite forallb_forall. split.
    - intros -> b Hb. destruct (In_nth _ _ false Hb) as [k [Hk <-]].
      destruct (Hat k Hk) as [a <-]. apply negb_true_iff. now apply Hciff.
    - intros H. assert (E : Ok c = Ok true); [| now injection E].
      apply Hciff. intros a. apply negb_true_iff, H, Hin. }
  now rewrite Et, Ec.
Qed.

(** The classifiers read off the table what [synthesize] was given: for
    distinct names and [2^n] values, its formula is a tautology exactly when
    all values are true and a contradiction exactly when none is; also in
    the edge case, where the formula is [(p&~p)]. *)
Theorem classifiers_of_synthesize (vs : list string) (values : list bool) :
  vs <> [] ->
  forallb is_variable vs = true ->
  NoDup vs ->
  length values = 2 ^ length vs ->
  exists f,
    synthesize vs values = Ok f /\
    is_tautology f = Ok (forallb (fun b => b) values) /\
    is_contradiction f = Ok (forallb negb values).
Proof.
  intros Hne Hvars Hnd Hlen. eexists. split;
    [apply synthesize_Ok; (assumption || lia)|].
  apply (classifiers_of_table _ vs); try assumption.
  - apply well_formed_joined; try reflexivity.
    intros g Hg. apply in_map_iff in Hg as [i [<- _]].
    now apply well_formed_dnf_clause, is_model_build_model.
  - intros a k Hk Ha. now apply truth_synthesized_dnf.
Qed.

Lemma classifiers_of_synthesize_witness :
  exists f,
    synthesize ["p"; "q"] [false; true; true; false] = Ok f /\
    is_tautology f = Ok (forallb (fun b => b) [false; true; true; false]) /\
    is_contradiction f = Ok (forallb negb [false; true; true; false]).
Proof.
  apply classifiers_of_synthesize;
    [discriminate | reflexivity | | reflexivity].
  repeat constructor; simpl; intuition discriminate.
Defined.

(** The same for [synthesize_cnf], also in its edge case, where the formula
    is [(p|~p)]. *)
Theorem classifiers_of_synthesize_cnf (vs : list string)
  (values : list bool) :
  vs <> [] ->
  forallb is_variable vs = true ->
  NoDup vs ->
  length values = 2 ^ length vs ->
  exists f,
    synthesize_cnf vs values = Ok f /\
    is_tautology f = Ok (forallb (fun b => b) values) /\
    is_contradiction f = Ok (forallb negb values).
Proof.
  intros Hne Hvars Hnd Hlen. eexists. split;
    [apply synthesize_cnf_Ok; (assumption || lia)|].
  apply (classifiers_of_table _ vs); try assumption.
  - apply well_formed_joined; try reflexivity.
    intros g Hg. apply in_map_iff in Hg as [i [<- _]].
    now apply well_formed_cnf_clause, is_model_build_model.
  - intros a k Hk Ha. now apply truth_synthesized_cnf.
Qed.

Lemma classifiers_of_synthesize_cnf_witness :
  exists f,
    synthesize_cnf ["p"; "q"] [true; true; true; true] = Ok f /\
    is_tautology f = Ok (forallb (fun b => b) [true; true; true; true]) /\
    is_contradiction f = Ok (forallb negb [true; true; true; true]).
Proof.
  apply classifiers_of_synthesize_cnf;
    [discriminate | reflexivity | | reflexivity].
  repeat constructor; simpl; intuition discriminate.
Defined.

Lemma nth_map_seq {A : Type} (f : nat -> A) (len k : nat) (d : A) :
  k < len -> nth k (map f (seq 0 len)) d = f k.
Proof.
  intros Hk. apply nth_error_nth. apply nth_error_map_seq. now split.
Qed.

(** A formula whose value under every assignment is the entry of the truth
    table of [formula] at the model that represents the assignment
    evaluates like [formula]. *)
Lemma evaluate_like_table (formula g : Formula) (vs : list string) :
  well_formed formula = true ->
  well_formed g = true ->
  NoDup vs ->
  incl (variable_occurrences formula) vs ->
  (forall a k,
      k < 2 ^ length vs ->
      (forall v, In v vs ->
                 value_in (combine vs (bits (length vs) k)) v = a v) ->
      truth a g = truth (value_in (build_model (length vs) k vs)) formula) ->
  forall m,
    is_model m = true ->
    issubset vs (keys m) = true ->
    issubset (formula_variables g) (keys m) = true ->
    evaluate g m = evaluate formula m.
Proof.
  intros Hwf Hwg Hnd Hocc Htable m Hm Hvs Hg.
  assert (Hf : issubset (formula_variables formula) (keys m) = true).
  { apply issubset_formula_variables. apply issubset_incl in Hvs.
    intros x Hx. now apply Hvs, Hocc. }
  rewrite !evaluate_truth by assumption. f_equal.
  destruct (model_of_assignment vs (value_in m) Hnd) as [k [Hk Ha]].
  rewrite (Htable _ k Hk Ha). rewrite build_model_NoDup by assumption.
  apply truth_ext. intros x Hx. now apply Ha, Hocc.
Qed.

(** Every formula has a disjunctive normal form, and [synthesize] finds it:
    given distinct names that include the variables of a well-formed
    formula, and the values to which [evaluate] takes the formula in all
    models of the names, it returns a formula in disjunctive normal form that evaluates
    like the given formula in every valid model that has the names and the
    variables of the returned formula. *)
Theorem synthesize_of_evaluated_values (formula : Formula) (vs : list string) :
  well_formed formula = true ->
  vs <> [] ->
  forallb is_variable vs = true ->
  NoDup vs ->
  incl (formula_variables formula) vs ->
  exists ms tv g,
    all_models vs = Ok ms /\
    map (evaluate formula) ms = map Ok tv /\
    synthesize vs tv = Ok g /\
    is_dnf g = true /\
    forall m,
      is_model m = true ->
      issubset vs (keys m) = true ->
      issubset (formula_variables g) (keys m) = true ->
      evaluate g m = evaluate formula m.
Proof.
  intros Hwf Hne Hvars Hnd Hincl.
  assert (Hocc : incl (variable_occurrences formula) vs)
    by (intros x Hx; now apply Hincl, formula_variables_In).
  set (tv := map (fun i => truth (value_in (build_model (length vs) i vs))
                             formula) (seq 0 (2 ^ length vs))).
  assert (Hlen : length tv = 2 ^ length vs)
    by (unfold tv; now rewrite length_map, length_seq).
  pose proof (synthesize_Ok vs tv Hne Hvars) as Hg.
  rewrite Hlen in Hg. specialize (Hg (Nat.le_refl _)).
  destruct (synthesized_dnf_shape vs
              (filter (fun i => nth i tv false) (seq 0 (2 ^ length vs)))
              Hne Hvars) as [Hwg Hd].
  set (g := joined "|" _ _) in Hg, Hwg, Hd.
  exists (map (fun i => build_model (length vs) i vs)
            (seq 0 (2 ^ length vs))), tv, g.
  split; [now apply all_models_Ok | split; [| split; [exact Hg | split]]].
  - rewrite map_evaluate_truth; [unfold tv; now rewrite !map_map | exact Hwf |].
    apply Forall_forall. intros m Hm. apply in_map_iff in Hm as [i [<- _]].
    split; [now apply is_model_build_model|].
    apply issubset_formula_variables. intros x Hx.
    now apply keys_build_model, Hocc.
  - exact Hd.
  - apply (evaluate_like_table formula g vs); try assumption.
    intros a k Hk Ha. unfold g.
    rewrite (truth_synthesized_dnf vs tv a k) by assumption.
    unfold tv. now rewrite nth_map_seq by assumption.
Qed.

Lemma synthesize_of_evaluated_values_witness :
  exists ms tv g,
    all_models ["p"; "q"] = Ok ms /\
    map (evaluate (Bin "->" (Atom "p") (Atom "q"))) ms = map Ok tv /\
    synthesize ["p"; "q"] tv = Ok g /\
    is_dnf g = true /\
    forall m,
      is_model m = true ->
      issubset ["p"; "q"] (keys m) = true ->
      issubset (formula_variables g) (keys m) = true ->
      evaluate g m = evaluate (Bin "->" (Atom "p") (Atom "q")) m.
Proof.
  apply synthesize_of_evaluated_values;
    [reflexivity | discriminate | reflexivity | |].
  - repeat constructor; simpl; intuition discriminate.
  - intros x Hx. exact Hx.
Defined.

(** Every formula has a conjunctive normal form, and [synthesize_cnf] finds
    it, in the same sense. *)
Theorem synthesize_cnf_of_evaluated_values (formula : Formula)
  (vs : list string) :
  well_formed formula = true ->
  vs <> [] ->
  forallb is_variable vs = true ->
  NoDup vs ->
  incl (formula_variables formula) vs ->
  exists ms tv g,
    all_models vs = Ok ms /\
    map (evaluate formula) ms = map Ok tv /\
    synthesize_cnf vs tv = Ok g /\
    is_cnf g = true /\
    forall m,
      is_model m = true ->
      issubset vs (keys m) = true ->
      issubset (formula_variables g) (keys m) = true ->
      evaluate g m = evaluate formula m.
Proof.
  intros Hwf Hne Hvars Hnd Hincl.
  assert (Hocc : incl (variable_occurrences formula) vs)
    by (intros x Hx; now apply Hincl, formula_variables_In).
  set (tv := map (fun i => truth (value_in (build_model (length vs) i vs))
                             formula) (seq 0 (2 ^ length vs))).
  assert (Hlen : length tv = 2 ^ length vs)
    by (unfold tv; now rewrite length_map, length_seq).
  pose proof (synthesize_cnf_Ok vs tv Hne Hvars) as Hg.
  rewrite Hlen in Hg. specialize (Hg (Nat.le_refl _)).
  destruct (synthesized_cnf_shape vs
              (filter (fun i => negb (nth i tv false))
                 (seq 0 (2 ^ length vs)))
              Hne Hvars) as [Hwg Hd].
  set (g := joined "&" _ _) in Hg, Hwg, Hd.
  exists (map (fun i => build_model (length vs) i vs)
            (seq 0 (2 ^ length vs))), tv, g.
  split; [now apply all_models_Ok | split; [| split; [exact Hg | split]]].
  - rewrite map_evaluate_truth; [unfold tv; now rewrite !map_map | exact Hwf |].
    apply Forall_forall. intros m Hm. apply in_map_iff in Hm as [i [<- _]].
    split; [now apply is_model_build_model|].
    apply issubset_formula_variables. intros x Hx.
    now apply keys_build_model, Hocc.
  - exact Hd.
  - apply (evaluate_like_table formula g vs); try assumption.
    intros a k Hk Ha. unfold g.
    rewrite (truth_synthesized_cnf vs tv a k) by assumption.
    unfold tv. now rewrite nth_map_seq by assumption.
Qed.

Lemma synthesize_cnf_of_evaluated_values_witness :
  exists ms tv g,
    all_models ["p"; "q"] = Ok ms /\
    map (evaluate (Bin "->" (Atom "p") (Atom "q"))) ms = map Ok tv /\
    synthesize_cnf ["p"; "q"] tv = Ok g /\
    is_cnf g = true /\
    forall m,
      is_model m = true ->
      issubset ["p"; "q"] (keys m) = true ->
      issubset (formula_variables g) (keys m) = true ->
      evaluate g m = evaluate (Bin "->" (Atom "p") (Atom "q")) m.
Proof.
  apply synthesize_cnf_of_evaluated_values;
    [reflexivity | discriminate | reflexivity | |].
  - repeat constructor; simpl; intuition discriminate.
  - intros x Hx. exact Hx.
Defined.

(** ** The truth table printer *)

Lemma insert_sorted_In (x y : string) (l : list string) :
  In y (insert_sorted x l) <-> y = x \/ In y l.
Proof.
  induction l as [|z l IH]; simpl; [intuition auto|].
  destruct (String.leb x z); simpl; [intuition auto|].
  rewrite IH. intuition auto.
Qed.

Lemma sorted_In (l : list string) (x : string) :
  In x (sorted l) <-> In x l.
Proof.
  induction l as [|y l IH]; simpl; [tauto|].
  rewrite insert_sorted_In, IH. intuition auto.
Qed.

Lemma length_insert_sorted (x : string) (l : list string) :
  length (insert_sorted x l) = S (length l).
Proof.
  induction l as [|z l IH]; simpl; [reflexivity|].
  destruct (String.leb x z); simpl; [reflexivity | now rewrite IH].
Qed.

Lemma length_sorted (l : list string) : length (sorted l) = length l.
Proof.
  induction l as [|y l IH]; simpl; [reflexivity|].
  now rewrite length_insert_sorted, IH.
Qed.

Lemma insert_sorted_Permutation (x : string) (l : list string) :
  Permutation (insert_sorted x l) (x :: l).
Proof.
  induction l as [|z l IH]; simpl; [reflexivity|].
  destruct (String.leb x z); [reflexivity|].
  rewrite IH. apply perm_swap.
Qed.

Lemma insert_sorted_Sorted (x : string) (l : list string) :
  Sorted (fun a b => String.leb a b = true) l ->
  Sorted (fun a b => String.leb a b = true) (insert_sorted x l).
Proof.
  induction 1 as [|z l Hl IH Hz]; simpl; [repeat constructor|].
  destruct (String.leb x z) eqn:Hxz.
  - repeat constructor; assumption.
  - constructor; [exact IH|].
    assert (Hzx : String.leb z x = true)
      by (destruct (String.leb_total x z); congruence).
    destruct l as [|w l]; simpl; [now constructor|].
    destruct (String.leb x w); constructor; [exact Hzx|].
    now inversion Hz.
Qed.

(** [sorted] sorts: its result is in ascending order and has the elements
    of the list, each as often. *)
Lemma sorted_sorts (l : list string) :
  Sorted (fun a b => String.leb a b = true) (sorted l) /\
  Permutation (sorted l) l.
Proof.
  induction l as [|x l [IHs IHp]]; simpl; [split; constructor|]. split.
  - now apply insert_sorted_Sorted.
  - rewrite insert_sorted_Permutation. now constructor.
Qed.

Lemma length_append (s1 s2 : string) :
  String.length (s1 ++ s2) = String.length s1 + String.length s2.
Proof. induction s1 as [|c s1 IH]; simpl; [reflexivity | now rewrite IH]. Qed.

Lemma length_concat (sep : string) (l : list string) :
  String.length (String.concat sep l)
  = list_sum (map String.length l) + String.length sep * (length l - 1).
Proof.
  induction l as [|x l IH]; [simpl; lia|].
  destruct l as [|y l].
  - simpl. lia.
  - change (String.concat sep (x :: y :: l))
      with (x ++ sep ++ String.concat sep (y :: l))%string.
    rewrite !length_append, IH. cbn [map list_sum length].
    rewrite !Nat.sub_succ, !Nat.sub_0_r, Nat.mul_succ_r.
    cbn [list_sum fold_right]. lia.
Qed.

Lemma length_dashes (n : nat) : String.length (dashes n) = n.
Proof.
  unfold dashes. rewrite length_concat. simpl String.length.
  rewrite Nat.mul_0_l, Nat.add_0_r.
  induction n as [|n IH]; simpl; [reflexivity | now rewrite IH].
Qed.

Lemma row_values_loop (m : Model) (vars_list : list string) :
  incl vars_list (keys m) ->
  forall acc,
    for_each vars_list
      (fun row_vals v => val <- getitem m v ;; Ok (row_vals ++ [mark val]))
      acc
    = Ok (acc ++ map (fun v => mark (value_in m v)) vars_list).
Proof.
  induction vars_list as [|v vs IH]; intros Hincl acc; simpl.
  - now rewrite app_nil_r.
  - destruct (getitem_In m v) as [b Hb]; [apply Hincl; now left|].
    unfold value_in at 1. rewrite Hb. cbn [bind].
    rewrite IH by (intros x Hx; apply Hincl; now right).
    now rewrite <- app_assoc.
Qed.

Lemma print_rows_prints (formula : Formula) (vars_list : list string)
  (ms : list Model) :
  well_formed formula = true ->
  Forall (fun m => covering formula m /\ incl vars_list (keys m)) ms ->
  forall out,
    print_rows formula vars_list ms out
    = (out ++ map (fun m =>
                     ("| " ++ String.concat " | "
                                (map (fun v => mark (value_in m v)) vars_list
                                 ++ [mark (truth (value_in m) formula)])
                      ++ " |")%string) ms,
       Ok tt).
Proof.
  intros Hwf. induction 1 as [|m ms [[Hm Hs] Hincl] _ IH]; intros out.
  - simpl. now rewrite app_nil_r.
  - cbn [print_rows map]. rewrite row_values_loop by assumption.
    rewrite (evaluate_truth _ _ Hwf Hm Hs). cbv zeta. rewrite IH.
    cbn [app]. now rewrite <- app_assoc.
Qed.

Lemma sorted_variables_models (formula : Formula) :
  forallb is_variable (sorted (formula_variables formula)) = true /\
  Forall (fun m => covering formula m
                   /\ incl (sorted (formula_variables formula)) (keys m))
    (map (fun i => build_model
                     (length (sorted (formula_variables formula))) i
                     (sorted (formula_variables formula)))
       (seq 0 (2 ^ length (sorted (formula_variables formula))))).
Proof.
  assert (Hvars : forallb is_variable (sorted (formula_variables formula))
                  = true).
  { apply forallb_forall. intros x Hx. apply (proj1 (sorted_In _ _)) in Hx.
    pose proof (formula_variables_are_variables formula) as H.
    rewrite forallb_forall in H. now apply H. }
  split; [exact Hvars|].
  apply Forall_forall. intros m Hm. apply in_map_iff in Hm as [i [<- _]].
  split; [split|].
  - now apply is_model_build_model.
  - apply issubset_incl. intros x Hx.
    now apply keys_build_model, sorted_In.
  - intros x Hx. now apply keys_build_model.
Qed.

Lemma map_combine_map {A B C : Type} (h : A -> B) (g : A * B -> C)
  (l : list A) :
  map g (combine l (map h l)) = map (fun a => g (a, h a)) l.
Proof.
  induction l as [|a l IH]; simpl; [reflexivity | now rewrite IH].
Qed.

Lemma print_truth_table_eq (str : Formula -> string) (formula : Formula) :
  well_formed formula = true ->
  print_truth_table str formula
  = (("| " ++ String.concat " | "
                (sorted (formula_variables formula) ++ [str formula])
      ++ " |")%string
     :: ("|" ++ String.concat " | "
                  (map (fun v => dashes (String.length v))
                     (sorted (formula_variables formula))
                   ++ [dashes (String.length (str formula))])
         ++ "|")%string
     :: map (fun m =>
               ("| " ++ String.concat " | "
                          (map (fun v => mark (value_in m v))
                             (sorted (formula_variables formula))
                           ++ [mark (truth (value_in m) formula)])
                ++ " |")%string)
          (map (fun i => build_model
                           (length (sorted (formula_variables formula))) i
                           (sorted (formula_variables formula)))
             (seq 0 (2 ^ length (sorted (formula_variables formula))))),
     Ok tt).
Proof.
  intros Hwf. destruct (sorted_variables_models formula) as [Hvars Hcov].
  unfold print_truth_table. rewrite (all_models_Ok _ Hvars).
  now rewrite print_rows_prints by assumption.
Qed.

(** [print_truth_table] never raises on a well-formed formula.  It prints
    the header, the separator and then one row for each model of
    [all_models] over the sorted variables of the formula, in that order;
    a row shows, between bars, [T] or [F] for the value of each variable in
    the model and for the value to which [evaluate] takes the formula in
    the model. *)
Theorem print_truth_table_prints (str : Formula -> string)
  (formula : Formula) :
  well_formed formula = true ->
  let vars_list := sorted (formula_variables formula) in
  exists ms tv,
    all_models vars_list = Ok ms /\
    map (evaluate formula) ms = map Ok tv /\
    length tv = length ms /\
    print_truth_table str formula
    = (("| " ++ String.concat " | " (vars_list ++ [str formula]) ++ " |")%string
       :: ("|" ++ String.concat " | "
                    (map (fun v => dashes (String.length v)) vars_list
                     ++ [dashes (String.length (str formula))])
           ++ "|")%string
       :: map (fun mb =>
                 ("| " ++ String.concat " | "
                            (map (fun v => mark (value_in (fst mb) v))
                               vars_list
                             ++ [mark (snd mb)])
                  ++ " |")%string)
            (combine ms tv),
       Ok tt).
Proof.
  intros Hwf vars_list.
  destruct (sorted_variables_models formula) as [Hvars Hcov].
  rewrite print_truth_table_eq by assumption. fold vars_list in Hvars, Hcov |- *.
  eexists. exists (map (fun m => truth (value_in m) formula)
                     (map (fun i => build_model (length vars_list) i vars_list)
                        (seq 0 (2 ^ length vars_list)))).
  split; [now apply all_models_Ok | split; [| split]].
  - rewrite map_evaluate_truth; [now rewrite !map_map | exact Hwf |].
    eapply Forall_impl; [| exact Hcov]. now intros m [H _].
  - now rewrite length_map.
  - do 3 f_equal.
    symmetry. apply (map_combine_map (fun m => truth (value_in m) formula)).
Qed.

Lemma print_truth_table_prints_witness :
  exists ms tv,
    all_models (sorted (formula_variables (Bin "&" (Atom "q") (Atom "p"))))
    = Ok ms /\
    map (evaluate (Bin "&" (Atom "q") (Atom "p"))) ms = map Ok tv /\
    length tv = length ms /\
    print_truth_table (fun _ => "(q&p)") (Bin "&" (Atom "q") (Atom "p"))
    = (("| " ++ String.concat " | "
                  (sorted (formula_variables (Bin "&" (Atom "q") (Atom "p")))
                   ++ ["(q&p)"]) ++ " |")%string
       :: ("|" ++ String.concat " | "
                    (map (fun v => dashes (String.length v))
                       (sorted (formula_variables
                                  (Bin "&" (Atom "q") (Atom "p"))))
                     ++ [dashes (String.length "(q&p)")])
           ++ "|")%string
       :: map (fun mb =>
                 ("| " ++ String.concat " | "
                            (map (fun v => mark (value_in (fst mb) v))
                               (sorted (formula_variables
                                          (Bin "&" (Atom "q") (Atom "p"))))
                             ++ [mark (snd mb)])
                  ++ " |")%string)
            (combine ms tv),
       Ok tt).
Proof.
  apply (print_truth_table_prints (fun _ => "(q&p)")
           (Bin "&" (Atom "q") (Atom "p"))).
  reflexivity.
Defined.

Lemma list_sum_unit_lengths (cells : list string) :
  (forall c, In c cells -> String.length c = 1) ->
  list_sum (map String.length cells) = length cells.
Proof.
  induction cells as [|c cells IH]; intros H; [reflexivity|].
  cbn [map list_sum fold_right length]. fold (list_sum (map String.length cells)).
  rewrite (H c) by now left. rewrite IH; [reflexivity|].
  intros c' Hc'. apply H. now right.
Qed.

(** The widths of what [print_truth_table] prints for a well-formed formula
    with [n] variables: the separator line is two characters shorter than
    the header line, and each of the [2^n] rows has [4n+5] characters,
    whatever the lengths of the names and of the rendered formula: cells
    are not padded to the width of their column. *)
Theorem print_truth_table_widths (str : Formula -> string)
  (formula : Formula) :
  well_formed formula = true ->
  exists header sep rows,
    print_truth_table str formula = (header :: sep :: rows, Ok tt) /\
    String.length header = String.length sep + 2 /\
    length rows = 2 ^ length (formula_variables formula) /\
    forall row,
      In row rows ->
      String.length row = 4 * length (formula_variables formula) + 5.
Proof.
  intros Hwf. rewrite print_truth_table_eq by assumption.
  do 3 eexists. split; [reflexivity | split; [| split]].
  - rewrite !length_append, !length_concat, !map_app, !length_app, !map_map,
      !length_map.
    cbn [map length String.length]. rewrite length_dashes.
    rewrite (map_ext (fun v => String.length (dashes (String.length v)))
               String.length) by (intros; apply length_dashes).
    lia.
  - now rewrite !length_map, length_seq, length_sorted.
  - intros row Hrow. apply in_map_iff in Hrow as [m [<- _]].
    rewrite !length_append, length_concat, list_sum_unit_lengths.
    + rewrite length_app, length_map, length_sorted.
      cbn [length String.length]. lia.
    + intros c Hc. apply in_app_or in Hc as [Hc | [<- | []]].
      * apply in_map_iff in Hc as [v [<- _]]. now destruct (value_in m v).
      * now destruct (truth (value_in m) formula).
Qed.

Lemma print_truth_table_widths_witness :
  exists header sep rows,
    print_truth_table (fun _ => "~(p&q76)")
      (Un "~" (Bin "&" (Atom "p") (Atom "q76")))
    = (header :: sep :: rows, Ok tt) /\
    String.length header = String.length sep + 2 /\
    length rows
    = 2 ^ length (formula_variables (Un "~" (Bin "&" (Atom "p") (Atom "q76"))))
    /\
    forall row,
      In row rows ->
      String.length row
      = 4 * length (formula_variables
                      (Un "~" (Bin "&" (Atom "p") (Atom "q76")))) + 5.
Proof.
  apply print_truth_table_widths. reflexivity.
Defined.
